(** * Database migration CLI (tools/cli/cli.py): model and properties

    The CLI drives a PostgreSQL session through psycopg2: connect, execute,
    commit, rollback, close.  The model below keeps the program's own control
    flow (try / except / finally, early returns, loops over fetched rows) and
    treats the engine as the commands see it: a committed database, the working
    copy of the open transaction, and calls that may raise.

    - A command is a function from the world to a result (a value or an
      exception), the world it leaves and the log of what it did.
    - connect fails when no server answers at the URL; every execute and
      every commit may fail, as a fault plan in the world says; a SQL file is
      opaque text that the engine takes or rejects.  rollback and close do not
      raise on an open session: the program calls them from its except and
      finally blocks, with no handler around them.
    - cursor.execute and the fetchall, fetchone or rowcount after it are one
      step that hands back the rows.
    - Keys come from the engine; here a new key is one above the largest in
      use. *)

From Stdlib Require Import String Ascii List Bool Arith PeanoNat Lia.
Import ListNotations.
Open Scope string_scope.
Open Scope list_scope.

Set Implicit Arguments.

(* ------------------------------------------------------------------ *)
(** ** Python strings and posixpath *)

Module Py.

(** [str.lower] on the ASCII letters.  No character outside ASCII lowers to
    y, e or s, so comparing a lowered input with the word yes is decided by
    the ASCII part. *)
Definition lower_char (c : ascii) : ascii :=
  let n := nat_of_ascii c in
  if ((65 <=? n) && (n <=? 90))%nat then ascii_of_nat (n + 32) else c.

Fixpoint lower (s : string) : string :=
  match s with
  | EmptyString => EmptyString
  | String c s' => String (lower_char c) (lower s')
  end.

(** Truth value of a [str]: the empty string is falsy. *)
Definition truthy (s : string) : bool := negb (s =? "").

(** Truth value of an optional [str] ([None] is falsy). *)
Definition truthy_opt (o : option string) : bool :=
  match o with Some s => truthy s | None => false end.

(** [a or b] on optional strings. *)
Definition or_else (a b : option string) : option string :=
  if truthy_opt a then a else b.

Definition slash : ascii := "/"%char.

Definition is_slash (c : ascii) : bool := (c =? slash)%char.

(** [os.path.isabs] *)
Definition isabs (p : string) : bool :=
  match p with
  | String c _ => is_slash c
  | EmptyString => false
  end.

Fixpoint ends_with_slash (p : string) : bool :=
  match p with
  | EmptyString => false
  | String c EmptyString => is_slash c
  | String _ p' => ends_with_slash p'
  end.

(** [os.path.join a b] *)
Definition join (a b : string) : string :=
  if isabs b then b
  else if (a =? "") || ends_with_slash a then (a ++ b)%string
  else (a ++ "/" ++ b)%string.

Fixpoint drop_while_not_slash (l : list ascii) : list ascii :=
  match l with
  | [] => []
  | c :: l' => if is_slash c then l else drop_while_not_slash l'
  end.

Fixpoint drop_slashes (l : list ascii) : list ascii :=
  match l with
  | [] => []
  | c :: l' => if is_slash c then drop_slashes l' else l
  end.

(** [os.path.dirname]: the text up to the last slash, with trailing slashes
    stripped unless it consists of slashes only. *)
Definition dirname (p : string) : string :=
  let head := drop_while_not_slash (rev (list_ascii_of_string p)) in
  if forallb is_slash head
  then string_of_list_ascii (rev head)
  else string_of_list_ascii (rev (drop_slashes head)).

End Py.

(* ------------------------------------------------------------------ *)
(** ** The database as the commands observe it *)

Record TableInfo := {
  tablename : string;
  size_pretty : string
}.

Record User := {
  user_id : nat;
  username : string;
  email : string;
  password_hash : string;
  user_type : string
}.

Record Customer := {
  customer_user : nat;
  customer_name : string;
  customer_phone : string
}.

Record Vendor := {
  vendor_pk : nat;
  vendor_user : nat;
  business_name : string;
  vendor_phone : string;
  vendor_city : string
}.

Record Driver := {
  driver_user : nat;
  driver_name : string;
  driver_phone : string;
  vehicle_type : string
}.

Record Admin := {
  admin_user : nat;
  admin_name : string;
  admin_role : string
}.

Record Menu := {
  menu_id : nat;
  menu_name : string;
  menu_vendor : option nat;
  created_at : nat
}.

(** [tables] and [enums] are what pg_tables and pg_type report for the public
    schema; the row stores hold the rows of the tables the statements name.
    [restaurant_menus] keeps the menu_id column of the association table.
    [named_by] is the engine's reading, as the name of a relation of the
    public schema, of a table name that is not a plain unquoted one (see
    [Sql.resolve]); None when the text names no relation. *)
Record Db := {
  pg_version : string;
  tables : list TableInfo;
  enums : list string;
  users : list User;
  customers : list Customer;
  vendors : list Vendor;
  drivers : list Driver;
  admins : list Admin;
  menus : list Menu;
  restaurant_menus : list nat;
  other_rows : string -> nat;
  named_by : string -> option string
}.

Definition with_tables (t : list TableInfo) (d : Db) : Db :=
  {| pg_version := pg_version d; tables := t; enums := enums d;
     users := users d; customers := customers d; vendors := vendors d;
     drivers := drivers d; admins := admins d; menus := menus d;
     restaurant_menus := restaurant_menus d; other_rows := other_rows d;
     named_by := named_by d |}.

Definition with_enums (e : list string) (d : Db) : Db :=
  {| pg_version := pg_version d; tables := tables d; enums := e;
     users := users d; customers := customers d; vendors := vendors d;
     drivers := drivers d; admins := admins d; menus := menus d;
     restaurant_menus := restaurant_menus d; other_rows := other_rows d;
     named_by := named_by d |}.

Definition with_users (u : list User) (d : Db) : Db :=
  {| pg_version := pg_version d; tables := tables d; enums := enums d;
     users := u; customers := customers d; vendors := vendors d;
     drivers := drivers d; admins := admins d; menus := menus d;
     restaurant_menus := restaurant_menus d; other_rows := other_rows d;
     named_by := named_by d |}.

Definition with_customers (c : list Customer) (d : Db) : Db :=
  {| pg_version := pg_version d; tables := tables d; enums := enums d;
     users := users d; customers := c; vendors := vendors d;
     drivers := drivers d; admins := admins d; menus := menus d;
     restaurant_menus := restaurant_menus d; other_rows := other_rows d;
     named_by := named_by d |}.

Definition with_vendors (v : list Vendor) (d : Db) : Db :=
  {| pg_version := pg_version d; tables := tables d; enums := enums d;
     users := users d; customers := customers d; vendors := v;
     drivers := drivers d; admins := admins d; menus := menus d;
     restaurant_menus := restaurant_menus d; other_rows := other_rows d;
     named_by := named_by d |}.

Definition with_drivers (v : list Driver) (d : Db) : Db :=
  {| pg_version := pg_version d; tables := tables d; enums := enums d;
     users := users d; customers := customers d; vendors := vendors d;
     drivers := v; admins := admins d; menus := menus d;
     restaurant_menus := restaurant_menus d; other_rows := other_rows d;
     named_by := named_by d |}.

Definition with_admins (a : list Admin) (d : Db) : Db :=
  {| pg_version := pg_version d; tables := tables d; enums := enums d;
     users := users d; customers := customers d; vendors := vendors d;
     drivers := drivers d; admins := a; menus := menus d;
     restaurant_menus := restaurant_menus d; other_rows := other_rows d;
     named_by := named_by d |}.

Definition with_menus (m : list Menu) (d : Db) : Db :=
  {| pg_version := pg_version d; tables := tables d; enums := enums d;
     users := users d; customers := customers d; vendors := vendors d;
     drivers := drivers d; admins := admins d; menus := m;
     restaurant_menus := restaurant_menus d; other_rows := other_rows d;
     named_by := named_by d |}.

Definition with_restaurant_menus (l : list nat) (d : Db) : Db :=
  {| pg_version := pg_version d; tables := tables d; enums := enums d;
     users := users d; customers := customers d; vendors := vendors d;
     drivers := drivers d; admins := admins d; menus := menus d;
     restaurant_menus := l; other_rows := other_rows d;
     named_by := named_by d |}.

Definition with_other_rows (f : string -> nat) (d : Db) : Db :=
  {| pg_version := pg_version d; tables := tables d; enums := enums d;
     users := users d; customers := customers d; vendors := vendors d;
     drivers := drivers d; admins := admins d; menus := menus d;
     restaurant_menus := restaurant_menus d; other_rows := f;
     named_by := named_by d |}.

(** Rows fetched by the orphan query of cleanup_orphaned_menus. *)
Record OrphanRow := {
  o_id : nat;
  o_name : string;
  o_vendor_id : option nat;
  o_vendor_name : option string;
  o_created_at : nat
}.

Module Sql.

Section Sorting.
Variable A : Type.
Variable le : A -> A -> bool.

Fixpoint insert_by (x : A) (l : list A) : list A :=
  match l with
  | [] => [x]
  | y :: l' => if le x y then x :: l else y :: insert_by x l'
  end.

(** ORDER BY: a stable insertion sort. *)
Definition order_by (l : list A) : list A := fold_right insert_by [] l.
End Sorting.

(** A generated key: above every key in use.  (A sequence also moves on
    when an insert is skipped on a conflict; the statements here read the
    key that came back, never its value.) *)
Definition fresh_id (ids : list nat) : nat := S (list_max ids).

(** SELECT COUNT( * ) FROM <table> *)
Definition count_rows (d : Db) (t : string) : nat :=
  if t =? "users" then length (users d)
  else if t =? "customers" then length (customers d)
  else if t =? "vendors" then length (vendors d)
  else if t =? "drivers" then length (drivers d)
  else if t =? "admins" then length (admins d)
  else if t =? "menus" then length (menus d)
  else if t =? "restaurant_menus" then length (restaurant_menus d)
  else other_rows d t.

(** DROP TABLE IF EXISTS <name> CASCADE: the catalogue entry goes, and with
    it the rows; an absent name is not an error. *)
Definition clear_rows (name : string) (d : Db) : Db :=
  if name =? "users" then with_users [] d
  else if name =? "customers" then with_customers [] d
  else if name =? "vendors" then with_vendors [] d
  else if name =? "drivers" then with_drivers [] d
  else if name =? "admins" then with_admins [] d
  else if name =? "menus" then with_menus [] d
  else if name =? "restaurant_menus" then with_restaurant_menus [] d
  else with_other_rows (fun t => if t =? name then 0 else other_rows d t) d.

Definition drop_table (name : string) (d : Db) : Db :=
  clear_rows name
    (with_tables (filter (fun t => negb (tablename t =? name)) (tables d)) d).

(** DROP TYPE IF EXISTS <name> CASCADE *)
Definition drop_type (name : string) (d : Db) : Db :=
  with_enums (filter (fun e => negb (e =? name)) (enums d)) d.

(** INSERT INTO users ... ON CONFLICT (username) DO NOTHING RETURNING id *)
Definition insert_user (u e h t : string) (d : Db) : Db * option nat :=
  if existsb (fun r => username r =? u) (users d)
  then (d, None)
  else
    let i := fresh_id (map user_id (users d)) in
    (with_users (users d ++ [{| user_id := i; username := u; email := e;
                                password_hash := h; user_type := t |}]) d,
     Some i).

Definition insert_customer (uid : nat) (n p : string) (d : Db) : Db :=
  with_customers (customers d ++ [{| customer_user := uid; customer_name := n;
                                     customer_phone := p |}]) d.

Definition insert_vendor (uid : nat) (n p c : string) (d : Db) : Db :=
  with_vendors (vendors d ++ [{| vendor_pk := fresh_id (map vendor_pk (vendors d));
                                 vendor_user := uid; business_name := n;
                                 vendor_phone := p; vendor_city := c |}]) d.

Definition insert_driver (uid : nat) (n p v : string) (d : Db) : Db :=
  with_drivers (drivers d ++ [{| driver_user := uid; driver_name := n;
                                 driver_phone := p; vehicle_type := v |}]) d.

Definition insert_admin (uid : nat) (n r : string) (d : Db) : Db :=
  with_admins (admins d ++ [{| admin_user := uid; admin_name := n;
                               admin_role := r |}]) d.

(** menus m LEFT JOIN restaurant_menus rm ON m.id = rm.menu_id
    WHERE rm.menu_id IS NULL *)
Definition is_orphan (d : Db) (m : Menu) : bool :=
  negb (existsb (Nat.eqb (menu_id m)) (restaurant_menus d)).

Definition orphans (d : Db) : list Menu := filter (is_orphan d) (menus d).

(** LEFT JOIN vendors v ON m.vendor_id = v.id *)
Definition vendor_name_of (d : Db) (m : Menu) : option string :=
  match menu_vendor m with
  | None => None
  | Some v =>
      option_map business_name (find (fun r => (vendor_pk r =? v)%nat) (vendors d))
  end.

Definition orphan_row (d : Db) (m : Menu) : OrphanRow :=
  {| o_id := menu_id m; o_name := menu_name m; o_vendor_id := menu_vendor m;
     o_vendor_name := vendor_name_of d m; o_created_at := created_at m |}.

(** ... ORDER BY m.created_at DESC *)
Definition select_orphans (d : Db) : list OrphanRow :=
  order_by (fun a b => (o_created_at b <=? o_created_at a)%nat)
           (map (orphan_row d) (orphans d)).

(** DELETE FROM menus WHERE id IN (ids of the orphans) *)
Definition delete_orphans (d : Db) : Db * nat :=
  (with_menus
     (filter (fun m => negb (existsb (Nat.eqb (menu_id m))
                                     (map menu_id (orphans d))))
             (menus d)) d,
   length (filter (fun m => existsb (Nat.eqb (menu_id m))
                                    (map menu_id (orphans d)))
                  (menus d))).

Fixpoint distinct (l : list nat) : list nat :=
  match l with
  | [] => []
  | x :: l' => if existsb (Nat.eqb x) l' then distinct l' else x :: distinct l'
  end.

(** total menus, total assignments, menus with restaurants *)
Definition stats (d : Db) : nat * nat * nat :=
  (length (menus d), length (restaurant_menus d),
   length (distinct (restaurant_menus d))).

(** White space as the engine's name scanner takes it: space, tab, newline,
    carriage return, form feed. *)
Definition is_space (c : ascii) : bool :=
  let n := nat_of_ascii c in
  ((n =? 32) || (n =? 9) || (n =? 10) || (n =? 13) || (n =? 12))%nat.

Definition is_dot (c : ascii) : bool := (nat_of_ascii c =? 46)%nat.

Definition is_double_quote (c : ascii) : bool := (nat_of_ascii c =? 34)%nat.

(** The name is read as one unquoted part when it stands behind 'public.' in
    a text cast to regclass: it is not empty, does not open a quoted part,
    and holds neither a dot, which would start another part, nor white
    space. *)
Definition unquoted (name : string) : bool :=
  match list_ascii_of_string name with
  | [] => false
  | c :: l =>
      negb (is_double_quote c) &&
      forallb (fun x => negb (is_dot x) && negb (is_space x)) (c :: l)
  end.

(** The relation of the public schema that schemaname||'.'||tablename names
    once the text is cast to regclass, as pg_total_relation_size does with
    its argument: the name is not quoted in the text, so an unquoted part is
    folded to lower case (its ASCII letters) before it is looked up.  What a
    name of another shape comes to is the database's [named_by]. *)
Definition resolve (d : Db) (name : string) : option string :=
  if unquoted name then Some (Py.lower name) else named_by d name.

(** pg_size_pretty(pg_total_relation_size(schemaname||'.'||tablename)) for
    the row of pg_tables with this table name: the size of the relation the
    text resolves to, which is the table itself only when its name reads as
    itself; None when the text names no relation, and the query fails. *)
Definition relation_size (d : Db) (name : string) : option string :=
  match resolve d name with
  | Some n =>
      option_map size_pretty (find (fun t => tablename t =? n) (tables d))
  | None => None
  end.

Fixpoint sizes_of (d : Db) (l : list TableInfo)
  : option (list (string * string)) :=
  match l with
  | [] => Some []
  | t :: l' =>
      match relation_size d (tablename t), sizes_of d l' with
      | Some size, Some rows => Some ((tablename t, size) :: rows)
      | _, _ => None
      end
  end.

(** ... FROM pg_tables WHERE schemaname = 'public' ORDER BY tablename: the
    statement fails as a whole when the size of one row cannot be had. *)
Definition table_sizes (d : Db) : option (list (string * string)) :=
  sizes_of d
    (order_by (fun a b => String.leb (tablename a) (tablename b)) (tables d)).

End Sql.

(** The statements the commands send, indexed by what the cursor hands back
    (fetchall, fetchone or rowcount). *)
Inductive Stmt : Type -> Type :=
| SelectTables : Stmt (list string)
| DropTable (name : string) : Stmt unit
| SelectEnums : Stmt (list string)
| DropType (name : string) : Stmt unit
| SelectVersion : Stmt string
| SelectTableSizes : Stmt (list (string * string))
| SelectCount (table : string) : Stmt nat
| InsertUser (u e h t : string) : Stmt (option nat)
| InsertCustomer (uid : nat) (full_name phone : string) : Stmt unit
| InsertVendor (uid : nat) (business phone city : string) : Stmt unit
| InsertDriver (uid : nat) (full_name phone vehicle : string) : Stmt unit
| InsertAdmin (uid : nat) (full_name role : string) : Stmt unit
| SelectOrphans : Stmt (list OrphanRow)
| DeleteOrphans : Stmt nat
| CountOrphans : Stmt nat
| SelectStats : Stmt (nat * nat * nat)
| Batch (sql : string) : Stmt unit.

Definition is_mutating {A} (s : Stmt A) : bool :=
  match s with
  | SelectTables | SelectEnums | SelectVersion | SelectTableSizes
  | SelectCount _ | SelectOrphans | CountOrphans | SelectStats => false
  | _ => true
  end.

Definition is_delete {A} (s : Stmt A) : bool :=
  match s with
  | DeleteOrphans => true
  | _ => false
  end.

(** What a statement does to the working copy, and what comes back; [None]
    when the engine fails the statement.  The text of a SQL file is opaque:
    [run_batch] is the engine's reading of it, [None] when the engine rejects
    it.  The size listing of status fails when the name of a table does not
    resolve.  The statements on the application's tables are taken with the
    schema in place: they do not look the table up in the catalogue. *)
Definition apply_stmt (run_batch : string -> Db -> option Db)
           {A} (s : Stmt A) (d : Db) : option (Db * A) :=
  match s in Stmt T return option (Db * T) with
  | SelectTables => Some (d, map tablename (tables d))
  | DropTable n => Some (Sql.drop_table n d, tt)
  | SelectEnums => Some (d, enums d)
  | DropType n => Some (Sql.drop_type n d, tt)
  | SelectVersion => Some (d, pg_version d)
  | SelectTableSizes =>
      match Sql.table_sizes d with
      | Some rows => Some (d, rows)
      | None => None
      end
  | SelectCount t => Some (d, Sql.count_rows d t)
  | InsertUser u e h t => Some (Sql.insert_user u e h t d)
  | InsertCustomer i n p => Some (Sql.insert_customer i n p d, tt)
  | InsertVendor i n p c => Some (Sql.insert_vendor i n p c d, tt)
  | InsertDriver i n p v => Some (Sql.insert_driver i n p v d, tt)
  | InsertAdmin i n r => Some (Sql.insert_admin i n r d, tt)
  | SelectOrphans => Some (d, Sql.select_orphans d)
  | DeleteOrphans => Some (Sql.delete_orphans d)
  | CountOrphans => Some (d, length (Sql.orphans d))
  | SelectStats => Some (d, Sql.stats d)
  | Batch sql =>
      match run_batch sql d with
      | Some d' => Some (d', tt)
      | None => None
      end
  end.

(* ------------------------------------------------------------------ *)
(** ** Exceptions, output and the call log *)

Inductive Exn :=
| ValueError (msg : string)
| OperationalError
| OSError
| EOFError
| AttributeError
| InterfaceError.

(** One constructor per line the program prints. *)
Inductive Msg :=
| MsgConnected
| MsgConnectFailed (e : Exn)
| MsgClosed
| MsgFileOk (path : string)
| MsgFileError (e : Exn)
| MsgMigrateHeader
| MsgSchemaNotFound (path : string)
| MsgStep1
| MsgDropFailed
| MsgDropSkipped (path : string)
| MsgStep2
| MsgMigrateOk
| MsgMigrateFailed
| MsgResetHeader
| MsgNoTables
| MsgDropping (n : nat)
| MsgDroppedTable (name : string)
| MsgDroppedType (name : string)
| MsgResetOk
| MsgResetError (e : Exn)
| MsgStatusHeader
| MsgVersion (v : string)
| MsgTables (n : nat)
| MsgTableLine (table : string) (count : nat) (size : string)
| MsgNoTablesFound
| MsgTypes (n : nat)
| MsgTypeLine (name : string)
| MsgStatusError (e : Exn)
| MsgSeedHeader
| MsgCreatingUsers
| MsgCreatedUser (username role : string)
| MsgSeedOk
| MsgCredentialsHeader
| MsgCredential (username password role : string)
| MsgSeedError (e : Exn)
| MsgCleanupHeader
| MsgNoOrphans
| MsgFound (n : nat)
| MsgRule
| MsgOrphan (id : nat) (name vendor_display : string) (created : nat)
| MsgDryRun
| MsgDryRunHint
| MsgDryRunCommand
| MsgWarnDelete
| MsgConfirmPrompt
| MsgCancelled
| MsgDeleted (n : nat)
| MsgAllRemoved
| MsgStillOrphans (n : nat)
| MsgStatsHeader
| MsgTotalMenus (n : nat)
| MsgMenusWithRestaurants (n : nat)
| MsgMenuAssignments (n : nat)
| MsgCleanupError (e : Exn)
| MsgError (e : Exn).

(** What the process does to the outside, in order.  [EvExecute], [EvCommit],
    [EvConnect] and [EvOpen] carry whether the call went through;
    [EvRollback] is a rollback that went through and [EvRollbackRaised] a
    call of rollback that raised, on a connection whose session is over;
    [EvDisconnect] marks a call of the disconnect method. *)
Inductive Event :=
| EvConnect (url : string) (ok : bool)
| EvExecute (A : Type) (s : Stmt A) (ok : bool)
| EvCommit (ok : bool)
| EvRollback
| EvRollbackRaised
| EvClose
| EvDisconnect
| EvOpen (path : string) (ok : bool)
| EvInput (answer : option string)
| EvPrint (m : Msg).

(* ------------------------------------------------------------------ *)
(** ** The world a command runs in *)

Inductive File :=
| Missing
| Unreadable
| Text (content : string).

(** [durable] is the committed database; [conn] is the live session behind
    self.conn and self.cursor, holding the working copy of the open
    transaction; [faults] says which of the coming execute and commit calls
    the engine fails.  With no live session ([conn] is None) [stale] tells the
    two states of the attributes apart: false, both are None, as __init__
    leaves them; true, they are objects whose session is over, closed by
    disconnect (which does not reset them) or ended by the server.
    [ends_session] picks, among the batches the engine does not take, those
    that end the session on their way (a backend that terminates itself, a
    server that shuts down). *)
Record World := {
  durable : Db;
  conn : option Db;
  server : string -> bool;
  faults : list bool;
  stdin : list string;
  entropy : list string;
  fs : string -> File;
  run_batch : string -> Db -> option Db;
  hashpw : string -> string -> string;
  environ : option string;
  script_file : string;
  stale : bool;
  ends_session : string -> bool
}.

Definition set_conn (c : option Db) (w : World) : World :=
  {| durable := durable w; conn := c; server := server w; faults := faults w;
     stdin := stdin w; entropy := entropy w; fs := fs w;
     run_batch := run_batch w; hashpw := hashpw w; environ := environ w;
     script_file := script_file w; stale := stale w;
     ends_session := ends_session w |}.

Definition set_durable (d : Db) (w : World) : World :=
  {| durable := d; conn := conn w; server := server w; faults := faults w;
     stdin := stdin w; entropy := entropy w; fs := fs w;
     run_batch := run_batch w; hashpw := hashpw w; environ := environ w;
     script_file := script_file w; stale := stale w;
     ends_session := ends_session w |}.

Definition set_faults (f : list bool) (w : World) : World :=
  {| durable := durable w; conn := conn w; server := server w; faults := f;
     stdin := stdin w; entropy := entropy w; fs := fs w;
     run_batch := run_batch w; hashpw := hashpw w; environ := environ w;
     script_file := script_file w; stale := stale w;
     ends_session := ends_session w |}.

Definition set_stdin (s : list string) (w : World) : World :=
  {| durable := durable w; conn := conn w; server := server w;
     faults := faults w; stdin := s; entropy := entropy w; fs := fs w;
     run_batch := run_batch w; hashpw := hashpw w; environ := environ w;
     script_file := script_file w; stale := stale w;
     ends_session := ends_session w |}.

(** The session is over: the attributes keep their objects, with nothing
    live behind them. *)
Definition over (w : World) : World :=
  {| durable := durable w; conn := None; server := server w;
     faults := faults w; stdin := stdin w; entropy := entropy w; fs := fs w;
     run_batch := run_batch w; hashpw := hashpw w; environ := environ w;
     script_file := script_file w; stale := true;
     ends_session := ends_session w |}.

(** Both attributes are None. *)
Definition unbound (w : World) : World :=
  {| durable := durable w; conn := None; server := server w;
     faults := faults w; stdin := stdin w; entropy := entropy w; fs := fs w;
     run_batch := run_batch w; hashpw := hashpw w; environ := environ w;
     script_file := script_file w; stale := false;
     ends_session := ends_session w |}.

Definition set_entropy (s : list string) (w : World) : World :=
  {| durable := durable w; conn := conn w; server := server w;
     faults := faults w; stdin := stdin w; entropy := s; fs := fs w;
     run_batch := run_batch w; hashpw := hashpw w; environ := environ w;
     script_file := script_file w; stale := stale w;
     ends_session := ends_session w |}.

(* ------------------------------------------------------------------ *)
(** ** A state, exception and log monad *)

Inductive Res (A : Type) :=
| Val (a : A)
| Raise (e : Exn).

Arguments Val {A} a.
Arguments Raise {A} e.

Record Out (A : Type) := mkOut {
  res : Res A;
  post : World;
  trace : list Event
}.

Definition M (A : Type) : Type := World -> Out A.

Definition ret {A} (a : A) : M A := fun w => mkOut (Val a) w [].

Definition raise {A} (e : Exn) : M A := fun w => mkOut (Raise e) w [].

Definition bind {A B} (m : M A) (k : A -> M B) : M B := fun w =>
  match m w with
  | mkOut (Val a) w1 t1 =>
      match k a w1 with
      | mkOut r w2 t2 => mkOut r w2 (t1 ++ t2)
      end
  | mkOut (Raise e) w1 t1 => mkOut (Raise e) w1 t1
  end.

(** try: m except Exception as e: h e *)
Definition try_except {A} (m : M A) (h : Exn -> M A) : M A := fun w =>
  match m w with
  | mkOut (Val a) w1 t1 => mkOut (Val a) w1 t1
  | mkOut (Raise e) w1 t1 =>
      match h e w1 with
      | mkOut r w2 t2 => mkOut r w2 (t1 ++ t2)
      end
  end.

(** try: m finally: f.  The finally block runs whatever [m] did; what [m]
    returned or raised stands unless [f] itself raises. *)
Definition try_finally {A} (m : M A) (f : M unit) : M A := fun w =>
  match m w with
  | mkOut r w1 t1 =>
      match f w1 with
      | mkOut (Val _) w2 t2 => mkOut r w2 (t1 ++ t2)
      | mkOut (Raise e) w2 t2 => mkOut (Raise e) w2 (t1 ++ t2)
      end
  end.

Declare Scope cli_scope.
Delimit Scope cli_scope with cli.
Notation "x <- m ;; k" := (bind m (fun x => k))
  (at level 61, m at next level, right associativity) : cli_scope.
Notation "m ;; k" := (bind m (fun _ => k))
  (at level 61, right associativity) : cli_scope.
Open Scope cli_scope.

(** [o] with the log [t] in front of its own. *)
Definition after {A} (t : list Event) (o : Out A) : Out A :=
  mkOut (res o) (post o) (t ++ trace o).

(** for x in l: body x *)
Fixpoint for_each {A} (l : list A) (body : A -> M unit) : M unit :=
  match l with
  | [] => ret tt
  | x :: l' => body x ;; for_each l' body
  end.

Definition emit (e : Event) : M unit := fun w => mkOut (Val tt) w [e].

Definition print (m : Msg) : M unit := emit (EvPrint m).

(* ------------------------------------------------------------------ *)
(** ** The libraries the program calls *)

(** psycopg2.connect(url) followed by conn.cursor() *)
Definition psycopg2_connect (url : string) : M unit := fun w =>
  if server w url
  then mkOut (Val tt) (set_conn (Some (durable w)) w) [EvConnect url true]
  else mkOut (Raise OperationalError) w [EvConnect url false].

(** The statement is a batch that ends the session when the engine does not
    take it.  The statements the commands write themselves never do. *)
Definition ends_by {A} (s : Stmt A) (w : World) : bool :=
  match s with
  | Batch sql => ends_session w sql
  | _ => false
  end.

(** self.cursor.execute(stmt) and the fetch that follows it.  A statement the
    engine fails leaves the working copy as it was; a batch that ends the
    session leaves no session.  On attributes that are None the call is an
    AttributeError; on a cursor whose session is over psycopg2 raises
    InterfaceError. *)
Definition cursor_execute {A} (s : Stmt A) : M A := fun w =>
  match conn w with
  | None =>
      if stale w
      then mkOut (Raise InterfaceError) w [EvExecute s false]
      else mkOut (Raise AttributeError) w []
  | Some d =>
      let w1 := set_faults (tl (faults w)) w in
      if hd false (faults w)
      then mkOut (Raise OperationalError) w1 [EvExecute s false]
      else
        match apply_stmt (run_batch w) s d with
        | Some (d', a) => mkOut (Val a) (set_conn (Some d') w1) [EvExecute s true]
        | None =>
            mkOut (Raise OperationalError)
                  (if ends_by s w then over w1 else w1)
                  [EvExecute s false]
        end
  end.

(** self.conn.commit(): the working copy becomes the committed database; a
    commit the engine fails discards it. *)
Definition conn_commit : M unit := fun w =>
  match conn w with
  | None =>
      if stale w
      then mkOut (Raise InterfaceError) w [EvCommit false]
      else mkOut (Raise AttributeError) w []
  | Some d =>
      let w1 := set_faults (tl (faults w)) w in
      if hd false (faults w)
      then mkOut (Raise OperationalError) (set_conn (Some (durable w)) w1)
                 [EvCommit false]
      else mkOut (Val tt) (set_durable d w1) [EvCommit true]
  end.

(** self.conn.rollback(): the working copy is discarded.  On a connection
    whose session is over the call raises InterfaceError. *)
Definition conn_rollback : M unit := fun w =>
  match conn w with
  | None =>
      if stale w
      then mkOut (Raise InterfaceError) w [EvRollbackRaised]
      else mkOut (Raise AttributeError) w []
  | Some _ => mkOut (Val tt) (set_conn (Some (durable w)) w) [EvRollback]
  end.

(** The world and the log that closing leaves: an open session is closed,
    and whatever was not committed is gone with it.  The attributes are not
    reset: they keep the closed objects, which are truthy, so that a later
    call closes them again (close on a closed cursor or connection does
    nothing and does not raise). *)
Definition closed (w : World) : World :=
  match conn w with
  | None => w
  | Some _ => over w
  end.

Definition close_log (w : World) : list Event :=
  match conn w with
  | None => if stale w then [EvClose] else []
  | Some _ => [EvClose]
  end.

(** cursor.close() and conn.close(), each under its own truth test. *)
Definition close_session : M unit := fun w =>
  mkOut (Val tt) (closed w) (close_log w).

(** with open(path, 'r') as f: f.read() *)
Definition open_read (path : string) : M string := fun w =>
  match fs w path with
  | Text s => mkOut (Val s) w [EvOpen path true]
  | _ => mkOut (Raise OSError) w [EvOpen path false]
  end.

(** os.path.exists *)
Definition os_path_exists (path : string) : M bool := fun w =>
  mkOut (Val (match fs w path with Missing => false | _ => true end)) w [].

(** os.path.abspath(__file__) *)
Definition script_abspath : M string := fun w =>
  mkOut (Val (script_file w)) w [].

(** os.getenv('DATABASE_URL') *)
Definition os_getenv : M (option string) := fun w =>
  mkOut (Val (environ w)) w [].

(** input(prompt): one line of standard input, EOFError at its end. *)
Definition input (prompt : Msg) : M string := fun w =>
  match stdin w with
  | [] => mkOut (Raise EOFError) w [EvPrint prompt; EvInput None]
  | s :: rest =>
      mkOut (Val s) (set_stdin rest w) [EvPrint prompt; EvInput (Some s)]
  end.

(** bcrypt.hashpw(password, bcrypt.gensalt()): a fresh salt per call. *)
Definition bcrypt_hash (password : string) : M string := fun w =>
  mkOut (Val (hashpw w password (hd "" (entropy w))))
        (set_entropy (tl (entropy w)) w) [].

(* ------------------------------------------------------------------ *)
(** ** class DatabaseCLI *)

(** The object keeps the URL; its conn and cursor live in the world. *)
Record DatabaseCLI := {
  db_url : string
}.

(** self.conn = None; self.cursor = None *)
Definition no_handles : M unit := fun w =>
  mkOut (Val tt) (unbound w) [].

Definition missing_url : Exn :=
  ValueError "DATABASE_URL environment variable is required".

(** __init__: db_url or os.getenv('DATABASE_URL'); ValueError without one. *)
Definition init (arg : option string) : M DatabaseCLI :=
  env <- os_getenv ;;
  match Py.or_else arg env with
  | Some u =>
      if negb (Py.truthy u)
      then raise missing_url
      else no_handles ;; ret {| db_url := u |}
  | None => raise missing_url
  end.

Definition connect (self : DatabaseCLI) : M bool :=
  try_except
    (psycopg2_connect (db_url self) ;;
     print MsgConnected ;;
     ret true)
    (fun e =>
       print (MsgConnectFailed e) ;;
       ret false).

Definition disconnect (self : DatabaseCLI) : M unit :=
  emit EvDisconnect ;;
  close_session ;;
  print MsgClosed.

Definition execute_sql_file (self : DatabaseCLI) (filepath : string) : M bool :=
  try_except
    (sql_content <- open_read filepath ;;
     cursor_execute (Batch sql_content) ;;
     conn_commit ;;
     print (MsgFileOk filepath) ;;
     ret true)
    (fun e =>
       conn_rollback ;;
       print (MsgFileError e) ;;
       ret false).

(** The path migrate works on: a relative schema path is taken from the
    project root, two levels above the directory of the script. *)
Definition resolve_schema (script schema_path : string) : string :=
  if negb (Py.isabs schema_path)
  then
    let script_dir := Py.dirname script in
    let project_root := Py.dirname (Py.dirname script_dir) in
    Py.join project_root schema_path
  else schema_path.

Definition drop_all_of (schema_path : string) : string :=
  Py.join (Py.dirname schema_path) "drop_all.sql".

(** Step 2 of migrate, reached from both branches of the drop step. *)
Definition migrate_schema (self : DatabaseCLI) (schema_path : string) : M bool :=
  print MsgStep2 ;;
  success <- execute_sql_file self schema_path ;;
  (if success then print MsgMigrateOk else print MsgMigrateFailed) ;;
  ret success.

Definition migrate (self : DatabaseCLI) (schema_arg : string) : M bool :=
  print MsgMigrateHeader ;;
  script <- script_abspath ;;
  let schema_path := resolve_schema script schema_arg in
  found <- os_path_exists schema_path ;;
  if negb found
  then print (MsgSchemaNotFound schema_path) ;; ret false
  else
    let drop_all_path := drop_all_of schema_path in
    ok <- connect self ;;
    if negb ok then ret false
    else
      try_finally
        (has_drop <- os_path_exists drop_all_path ;;
         if has_drop
         then
           print MsgStep1 ;;
           drop_success <- execute_sql_file self drop_all_path ;;
           if negb drop_success
           then print MsgDropFailed ;; ret false
           else migrate_schema self schema_path
         else
           print (MsgDropSkipped drop_all_path) ;;
           migrate_schema self schema_path)
        (disconnect self).

Definition reset (self : DatabaseCLI) : M bool :=
  print MsgResetHeader ;;
  ok <- connect self ;;
  if negb ok then ret false
  else
    try_finally
      (try_except
         (tables <- cursor_execute SelectTables ;;
          match tables with
          | [] => print MsgNoTables ;; ret true
          | _ :: _ =>
              print (MsgDropping (length tables)) ;;
              for_each tables (fun table =>
                cursor_execute (DropTable table) ;;
                print (MsgDroppedTable table)) ;;
              types <- cursor_execute SelectEnums ;;
              for_each types (fun type_name =>
                cursor_execute (DropType type_name) ;;
                print (MsgDroppedType type_name)) ;;
              conn_commit ;;
              print MsgResetOk ;;
              ret true
          end)
         (fun e =>
            conn_rollback ;;
            print (MsgResetError e) ;;
            ret false))
      (disconnect self).

Definition status (self : DatabaseCLI) : M bool :=
  print MsgStatusHeader ;;
  ok <- connect self ;;
  if negb ok then ret false
  else
    try_finally
      (try_except
         (version <- cursor_execute SelectVersion ;;
          print (MsgVersion version) ;;
          tables <- cursor_execute SelectTableSizes ;;
          match tables with
          | [] => print MsgNoTablesFound
          | _ :: _ =>
              print (MsgTables (length tables)) ;;
              for_each tables (fun row =>
                count <- cursor_execute (SelectCount (fst row)) ;;
                print (MsgTableLine (fst row) count (snd row)))
          end ;;
          types <- cursor_execute SelectEnums ;;
          match types with
          | [] => ret tt
          | _ :: _ =>
              print (MsgTypes (length types)) ;;
              for_each types (fun type_name => print (MsgTypeLine type_name))
          end ;;
          ret true)
         (fun e =>
            print (MsgStatusError e) ;;
            ret false))
      (disconnect self).

Definition sample_users : list (string * string * string * string) :=
  [ ("customer1", "customer1@example.com", "password123", "customer");
    ("vendor1", "vendor1@example.com", "password123", "vendor");
    ("driver1", "driver1@example.com", "password123", "driver");
    ("admin1", "admin1@example.com", "password123", "admin") ].

(** The profile row of a user the insert has just created. *)
Definition seed_profile (user_id : nat) (username user_type : string) : M unit :=
  if user_type =? "customer"
  then cursor_execute
         (InsertCustomer user_id ("Customer " ++ username)%string "+1234567890")
  else if user_type =? "vendor"
  then cursor_execute
         (InsertVendor user_id ("Business " ++ username)%string "+1234567890"
                       "New York")
  else if user_type =? "driver"
  then cursor_execute
         (InsertDriver user_id ("Driver " ++ username)%string "+1234567890" "Car")
  else if user_type =? "admin"
  then cursor_execute
         (InsertAdmin user_id ("Admin " ++ username)%string "System Administrator")
  else ret tt.

(** The body of the loop over sample_users. *)
Definition seed_user (u : string * string * string * string) : M unit :=
  let '(username, email, password, user_type) := u in
  password_hash <- bcrypt_hash password ;;
  result <- cursor_execute (InsertUser username email password_hash user_type) ;;
  match result with
  | Some user_id =>
      print (MsgCreatedUser username user_type) ;;
      seed_profile user_id username user_type
  | None => ret tt
  end.

Definition seed (self : DatabaseCLI) : M bool :=
  print MsgSeedHeader ;;
  ok <- connect self ;;
  if negb ok then ret false
  else
    try_finally
      (try_except
         (print MsgCreatingUsers ;;
          for_each sample_users seed_user ;;
          conn_commit ;;
          print MsgSeedOk ;;
          print MsgCredentialsHeader ;;
          print (MsgCredential "customer1" "password123" "Customer") ;;
          print (MsgCredential "vendor1" "password123" "Vendor") ;;
          print (MsgCredential "driver1" "password123" "Driver") ;;
          print (MsgCredential "admin1" "password123" "Admin") ;;
          ret true)
         (fun e =>
            conn_rollback ;;
            print (MsgSeedError e) ;;
            ret false))
      (disconnect self).

(** vendor_name if vendor_name else the placeholder *)
Definition vendor_display (o : OrphanRow) : string :=
  if Py.truthy_opt (o_vendor_name o)
  then match o_vendor_name o with Some n => n | None => "" end
  else "NO VENDOR (System Menu)".

(** The line printed for one orphaned menu. *)
Definition orphan_line (o : OrphanRow) : Msg :=
  MsgOrphan (o_id o) (o_name o) (vendor_display o) (o_created_at o).

(** The rest of cleanup_orphaned_menus once the operator has confirmed:
    delete, commit, verify, report. *)
Definition cleanup_execute : M bool :=
  deleted_count <- cursor_execute DeleteOrphans ;;
  conn_commit ;;
  print (MsgDeleted deleted_count) ;;
  remaining <- cursor_execute CountOrphans ;;
  (if (remaining =? 0)%nat
   then print MsgAllRemoved
   else print (MsgStillOrphans remaining)) ;;
  stats <- cursor_execute SelectStats ;;
  print MsgStatsHeader ;;
  print (MsgTotalMenus (fst (fst stats))) ;;
  print (MsgMenusWithRestaurants (snd stats)) ;;
  print (MsgMenuAssignments (snd (fst stats))) ;;
  ret true.

Definition cleanup_orphaned_menus (self : DatabaseCLI) (dry_run : bool) : M bool :=
  print MsgCleanupHeader ;;
  ok <- connect self ;;
  if negb ok then ret false
  else
    try_finally
      (try_except
         (orphaned_menus <- cursor_execute SelectOrphans ;;
          match orphaned_menus with
          | [] => print MsgNoOrphans ;; ret true
          | _ :: _ =>
              print (MsgFound (length orphaned_menus)) ;;
              print MsgRule ;;
              for_each orphaned_menus (fun o => print (orphan_line o)) ;;
              print MsgRule ;;
              if dry_run
              then
                print MsgDryRun ;;
                print MsgDryRunHint ;;
                print MsgDryRunCommand ;;
                ret true
              else
                print MsgWarnDelete ;;
                response <- input MsgConfirmPrompt ;;
                if negb (Py.lower response =? "yes")
                then print MsgCancelled ;; ret false
                else cleanup_execute
          end)
         (fun e =>
            conn_rollback ;;
            print (MsgCleanupError e) ;;
            ret false))
      (disconnect self).

(* ------------------------------------------------------------------ *)
(** ** main *)

Inductive Command :=
| Migrate
| Reset
| Status
| Seed
| CleanupOrphanedMenus.

(** What argparse hands over: the command is one of the five choices. *)
Record Args := {
  command : Command;
  arg_db_url : option string;
  arg_schema : string;
  arg_execute : bool
}.

Definition dispatch (cli : DatabaseCLI) (args : Args) : M bool :=
  match command args with
  | Migrate => migrate cli (arg_schema args)
  | Reset => reset cli
  | Status => status cli
  | Seed => seed cli
  | CleanupOrphanedMenus => cleanup_orphaned_menus cli (negb (arg_execute args))
  end.

(** The try block of main, run on the arguments parser.parse_args() handed
    over (a command line that argparse turns down does not get here).  The
    value is the exit status: sys.exit is not caught by the handler, which
    takes Exception only. *)
Definition main (args : Args) : M nat :=
  try_except
    (cli <- init (arg_db_url args) ;;
     success <- dispatch cli args ;;
     ret (if success : bool then 0 else 1))
    (fun e =>
       print (MsgError e) ;;
       ret 1).

(* ------------------------------------------------------------------ *)
(** ** Reading the call log *)

Definition is_disconnect (e : Event) : bool :=
  match e with EvDisconnect => true | _ => false end.

Definition is_connect_ok (e : Event) : bool :=
  match e with EvConnect _ true => true | _ => false end.

Definition is_session_event (e : Event) : bool :=
  match e with EvConnect _ _ | EvDisconnect => true | _ => false end.

Definition is_commit (e : Event) : bool :=
  match e with EvCommit _ => true | _ => false end.

Definition is_commit_ok (e : Event) : bool :=
  match e with EvCommit true => true | _ => false end.

Definition is_rollback (e : Event) : bool :=
  match e with EvRollback => true | _ => false end.

(** A call of rollback, gone through or not. *)
Definition is_rollback_call (e : Event) : bool :=
  match e with EvRollback | EvRollbackRaised => true | _ => false end.

Definition is_execute (e : Event) : bool :=
  match e with EvExecute _ _ => true | _ => false end.

Definition is_delete_event (e : Event) : bool :=
  match e with EvExecute s _ => is_delete s | _ => false end.

(** A statement that writes. *)
Definition is_write (e : Event) : bool :=
  match e with
  | EvExecute s _ => is_mutating s
  | _ => false
  end.

(** What a read-only command must not do. *)
Definition is_mutation (e : Event) : bool :=
  is_write e || is_commit e || is_rollback e.

Definition is_profile_insert (e : Event) : bool :=
  match e with
  | EvExecute s _ =>
      match s with
      | InsertCustomer _ _ _ | InsertVendor _ _ _ _
      | InsertDriver _ _ _ _ | InsertAdmin _ _ _ => true
      | _ => false
      end
  | _ => false
  end.

Definition count (f : Event -> bool) (tr : list Event) : nat :=
  length (filter f tr).

(** A connect that went through is in the log. *)
Definition connected (tr : list Event) : bool := existsb is_connect_ok tr.

(** No event of the log satisfies [f]. *)
Definition never (f : Event -> bool) (tr : list Event) : bool :=
  forallb (fun e => negb (f e)) tr.

(** Every run of [m] keeps clear of the events [f] picks. *)
Definition avoids {A} (f : Event -> bool) (m : M A) : Prop :=
  forall w, never f (trace (m w)) = true.

(** The committed database moves only at a commit that went through. *)
Definition honest {A} (m : M A) : Prop :=
  forall w, never is_commit_ok (trace (m w)) = true ->
            durable (post (m w)) = durable w.

Definition has_user (d : Db) (name : string) : bool :=
  existsb (fun r => username r =? name) (users d).

(** How a command leaves the session: disconnect is called once when a
    connect went through and not at all otherwise, and a run without a
    session returns False. *)
Definition balanced (w : World) (url : string) (o : Out bool) : Prop :=
  count is_disconnect (trace o) = (if connected (trace o) then 1 else 0) /\
  (connected (trace o) = true \/ res o = Val false) /\
  implb (connected (trace o)) (server w url) = true.

(** The file goes through: it can be read, the engine takes the batch and
    the commit. *)
Definition file_goes_through (w : World) (path : string) (d : Db) : Prop :=
  exists s d', fs w path = Text s /\ hd false (faults w) = false /\
               run_batch w s d = Some d' /\ hd false (tl (faults w)) = false.

(** The batch of the file is one the engine does not take and that ends the
    session on its way. *)
Definition batch_ends_session (w : World) (path : string) (d : Db) : Prop :=
  exists s, fs w path = Text s /\ hd false (faults w) = false /\
            run_batch w s d = None /\ ends_session w s = true.


(* ------------------------------------------------------------------ *)
(** ** Sample worlds *)

Definition empty_db : Db :=
  {| pg_version := "PostgreSQL 15.4";
     tables := []; enums := [];
     users := []; customers := []; vendors := []; drivers := []; admins := [];
     menus := []; restaurant_menus := [];
     other_rows := fun _ => 0;
     named_by := fun _ => None |}.

Definition app_tables : list TableInfo :=
  map (fun n => {| tablename := n; size_pretty := "8192 bytes" |})
      ["users"; "customers"; "vendors"; "drivers"; "admins"; "menus";
       "restaurant_menus"].

(** The schema in place, no rows yet. *)
Definition fresh_db : Db :=
  with_enums ["user_type"] (with_tables app_tables empty_db).

(** No tables, one enum type left behind. *)
Definition enum_only_db : Db := with_enums ["user_type"] empty_db.

(** Two menus, the first assigned to a restaurant, the second an orphan. *)
Definition menu_db : Db :=
  {| pg_version := "PostgreSQL 15.4";
     tables := app_tables; enums := ["user_type"];
     users := []; customers := []; vendors := []; drivers := []; admins := [];
     menus := [ {| menu_id := 1; menu_name := "Lunch"; menu_vendor := None;
                   created_at := 10 |};
                {| menu_id := 2; menu_name := "Dinner"; menu_vendor := None;
                   created_at := 20 |} ];
     restaurant_menus := [1];
     other_rows := fun _ => 0;
     named_by := fun _ => None |}.

Definition sample_url : string := "postgresql://localhost/delivery".

Definition sample_cli : DatabaseCLI := {| db_url := sample_url |}.

(** A batch that makes the backend of its own session terminate. *)
Definition terminate_backend : string :=
  "SELECT pg_terminate_backend(pg_backend_pid())".

(** A reachable server holding [d], no faults, and the files [files]; the
    engine takes the batches DROP and CREATE and no other, and the one batch
    that ends the session is [terminate_backend]. *)
Definition world_of (d : Db) (files : string -> File) (answers : list string)
  : World :=
  {| durable := d; conn := None;
     server := fun _ => true;
     faults := [];
     stdin := answers;
     entropy := ["s1"; "s2"; "s3"; "s4"];
     fs := files;
     run_batch := fun sql db =>
       if sql =? "DROP" then Some empty_db
       else if sql =? "CREATE" then Some fresh_db
       else None;
     hashpw := fun p s => (s ++ "$" ++ p)%string;
     environ := Some sample_url;
     script_file := "/srv/app/tools/cli/cli.py";
     stale := false;
     ends_session := fun sql => sql =? terminate_backend |}.

Definition no_files : string -> File := fun _ => Missing.

(** The same, with a server that does not answer. *)
Definition offline (w : World) : World :=
  {| durable := durable w; conn := conn w;
     server := fun _ => false;
     faults := faults w; stdin := stdin w; entropy := entropy w; fs := fs w;
     run_batch := run_batch w; hashpw := hashpw w; environ := environ w;
     script_file := script_file w; stale := stale w;
     ends_session := ends_session w |}.

(** The same, with DATABASE_URL unset. *)
Definition unset_env (w : World) : World :=
  {| durable := durable w; conn := conn w; server := server w;
     faults := faults w; stdin := stdin w; entropy := entropy w; fs := fs w;
     run_batch := run_batch w; hashpw := hashpw w; environ := None;
     script_file := script_file w; stale := stale w;
     ends_session := ends_session w |}.

Definition args_of (c : Command) : Args :=
  {| command := c; arg_db_url := None; arg_schema := "backend/sql/schema.sql";
     arg_execute := false |}.

Definition args_execute (c : Command) : Args :=
  {| command := c; arg_db_url := None; arg_schema := "backend/sql/schema.sql";
     arg_execute := true |}.

Definition schema_file : string := "/srv/app/backend/sql/schema.sql".

Definition drop_file : string := "/srv/app/backend/sql/drop_all.sql".

(** A drop script the engine takes and a schema file with the text [schema]. *)
Definition project_files (schema : string) : string -> File := fun p =>
  if p =? schema_file then Text schema
  else if p =? drop_file then Text "DROP"
  else Missing.

(** Every run of [m] from a world in [I] ends in a world in [I]. *)
Definition preserves {A} (I : World -> Prop) (m : M A) : Prop :=
  forall w, I w -> I (post (m w)).

(** A session is open. *)
Definition session_open (w : World) : Prop := conn w <> None.

(** The users insert of the sample tuple [u] is in the log and went through. *)
Definition user_insert_logged (u : string * string * string * string)
           (tr : list Event) : Prop :=
  let '(username, email, _, user_type) := u in
  exists h, In (EvExecute (InsertUser username email h user_type) true) tr.

(** Rows in the four profile tables. *)
Definition profile_rows (d : Db) : nat :=
  length (customers d) + length (vendors d) + length (drivers d) +
  length (admins d).

(** The role of a sample tuple. *)
Definition sample_type (u : string * string * string * string) : string :=
  snd u.

(** The user ids in the profile table of the role [user_type], in row
    order. *)
Definition profile_users (d : Db) (user_type : string) : list nat :=
  if user_type =? "customer" then map customer_user (customers d)
  else if user_type =? "vendor" then map vendor_user (vendors d)
  else if user_type =? "driver" then map driver_user (drivers d)
  else if user_type =? "admin" then map admin_user (admins d)
  else [].

(** An insert into the profile table of the role [user_type] with the user
    id [id]. *)
Definition is_profile_insert_for (user_type : string) (id : nat) (e : Event)
  : bool :=
  match e with
  | EvExecute s _ =>
      match s with
      | InsertCustomer i _ _ => (user_type =? "customer") && (i =? id)%nat
      | InsertVendor i _ _ _ => (user_type =? "vendor") && (i =? id)%nat
      | InsertDriver i _ _ _ => (user_type =? "driver") && (i =? id)%nat
      | InsertAdmin i _ _ => (user_type =? "admin") && (i =? id)%nat
      | _ => false
      end
  | _ => false
  end.

(** The username of a sample tuple. *)
Definition sample_name (u : string * string * string * string) : string :=
  fst (fst (fst u)).

(** The log of seed around its loop. *)
Definition seed_prefix (self : DatabaseCLI) : list Event :=
  [EvPrint MsgSeedHeader; EvConnect (db_url self) true; EvPrint MsgConnected;
   EvPrint MsgCreatingUsers].

Definition seed_credentials : list Event :=
  [EvPrint MsgSeedOk; EvPrint MsgCredentialsHeader;
   EvPrint (MsgCredential "customer1" "password123" "Customer");
   EvPrint (MsgCredential "vendor1" "password123" "Vendor");
   EvPrint (MsgCredential "driver1" "password123" "Driver");
   EvPrint (MsgCredential "admin1" "password123" "Admin")].

Definition goodbye : list Event := [EvDisconnect; EvClose; EvPrint MsgClosed].

(** The four ways a run of seed can go, [tr] being the log of the loop over
    sample_users and [wl] the world it leaves. *)
Inductive seed_outcome (self : DatabaseCLI) (w : World) : Prop :=
| SeedDown :
    server w (db_url self) = false ->
    res (seed self w) = Val false ->
    durable (post (seed self w)) = durable w ->
    trace (seed self w) =
      [EvPrint MsgSeedHeader; EvConnect (db_url self) false;
       EvPrint (MsgConnectFailed OperationalError)] ->
    seed_outcome self w
| SeedCommitted (wl : World) (tr : list Event) (dl : Db) :
    server w (db_url self) = true ->
    for_each sample_users seed_user (set_conn (Some (durable w)) w) =
      mkOut (Val tt) wl tr ->
    conn wl = Some dl ->
    res (seed self w) = Val true ->
    durable (post (seed self w)) = dl ->
    trace (seed self w) =
      seed_prefix self ++ tr ++ EvCommit true :: seed_credentials ++ goodbye ->
    seed_outcome self w
| SeedCommitFailed (wl : World) (tr : list Event) :
    server w (db_url self) = true ->
    for_each sample_users seed_user (set_conn (Some (durable w)) w) =
      mkOut (Val tt) wl tr ->
    res (seed self w) = Val false ->
    durable (post (seed self w)) = durable w ->
    trace (seed self w) =
      seed_prefix self ++ tr ++
      [EvCommit false; EvRollback; EvPrint (MsgSeedError OperationalError)] ++
      goodbye ->
    seed_outcome self w
| SeedLoopFailed (e : Exn) (wl : World) (tr : list Event) :
    server w (db_url self) = true ->
    for_each sample_users seed_user (set_conn (Some (durable w)) w) =
      mkOut (Raise e) wl tr ->
    res (seed self w) = Val false ->
    durable (post (seed self w)) = durable w ->
    trace (seed self w) =
      seed_prefix self ++ tr ++
      [EvRollback; EvPrint (MsgSeedError e)] ++ goodbye ->
    seed_outcome self w.


(** What RETURNING id hands back for the sample tuple [u] when its users
    insert runs on [d] in the world [w]. *)
Definition returned_id (u : string * string * string * string)
           (w : World) (d : Db) : option nat :=
  let '(username, email, password, user_type) := u in
  snd (Sql.insert_user username email
                       (hashpw w password (hd "" (entropy w))) user_type d).

(* ------------------------------------------------------------------ *)
(** ** Further notions *)




(** The URL __init__ settles on: --db-url when it is given and not empty,
    else DATABASE_URL when it is set and not empty. *)
Definition resolved_url (arg env : option string) : option string :=
  match Py.or_else arg env with
  | Some u => if Py.truthy u then Some u else None
  | None => None
  end.

Definition is_input (e : Event) : bool :=
  match e with EvInput _ => true | _ => false end.

Definition is_open_event (e : Event) : bool :=
  match e with EvOpen _ _ => true | _ => false end.

(** The try block of migrate, for the schema path [sp]. *)
Definition migrate_steps (self : DatabaseCLI) (sp : string) : M bool :=
  has_drop <- os_path_exists (drop_all_of sp) ;;
  if has_drop
  then
    print MsgStep1 ;;
    drop_success <- execute_sql_file self (drop_all_of sp) ;;
    if negb drop_success
    then print MsgDropFailed ;; ret false
    else migrate_schema self sp
  else
    print (MsgDropSkipped (drop_all_of sp)) ;;
    migrate_schema self sp.

(** What the loop of status logs for one row of the table listing on the
    database [d]. *)
Definition table_line_events (d : Db) (row : string * string) : list Event :=
  [EvExecute (SelectCount (fst row)) true;
   EvPrint (MsgTableLine (fst row) (Sql.count_rows d (fst row)) (snd row))].


(** A path component: not empty, no slash in it. *)
Definition is_name (s : string) : bool :=
  negb (s =? "") &&
  forallb (fun c => negb (Py.is_slash c)) (list_ascii_of_string s).

(** A directory path as dirname hands it back: slashes only (the empty
    string included), or not ending in a slash. *)
Definition is_dir (s : string) : bool :=
  forallb Py.is_slash (list_ascii_of_string s) || negb (Py.ends_with_slash s).

(** What parser.parse_args() makes of the command line, by the rules of
    argparse: it hands over the arguments, or it ends the process itself,
    with status 2 after a usage error (an unknown command or option, a
    missing value) and with status 0 after the help that -h and --help ask
    for. *)
Inductive Parsed :=
| Accepted (args : Args)
| UsageError
| HelpShown.

(** main from its first line.  The parser runs in front of the try block
    ([main] is that block): when it ends the process, nothing of main
    follows and nothing catches its exit. *)
Definition main_from (p : Parsed) : M nat :=
  match p with
  | Accepted args => main args
  | UsageError => ret 2
  | HelpShown => ret 0
  end.

(** A table name that the size query of status reads as the table itself:
    one unquoted part, with nothing for the lower-case folding to change. *)
Definition reads_as_itself (name : string) : bool :=
  Sql.unquoted name && (Py.lower name =? name).

(* ------------------------------------------------------------------ *)
(** * Properties *)

Unset Implicit Arguments.

(** ** Python strings and paths *)

Lemma lower_char_y (c : ascii) :
  Py.lower_char c = "y"%char -> c = "y"%char \/ c = "Y"%char.
Proof.
  destruct c as [[] [] [] [] [] [] [] []]; vm_compute; intros H;
    try discriminate H; auto.
Qed.

Lemma lower_char_e (c : ascii) :
  Py.lower_char c = "e"%char -> c = "e"%char \/ c = "E"%char.
Proof.
  destruct c as [[] [] [] [] [] [] [] []]; vm_compute; intros H;
    try discriminate H; auto.
Qed.

Lemma lower_char_s (c : ascii) :
  Py.lower_char c = "s"%char -> c = "s"%char \/ c = "S"%char.
Proof.
  destruct c as [[] [] [] [] [] [] [] []]; vm_compute; intros H;
    try discriminate H; auto.
Qed.

(** The answers cleanup_orphaned_menus takes for a yes. *)
Lemma lower_yes (s : string) :
  Py.lower s = "yes" <->
  In s ["yes"; "yeS"; "yEs"; "yES"; "Yes"; "YeS"; "YEs"; "YES"].
Proof.
  split.
  - destruct s as [|c1 [|c2 [|c3 [|c4 s']]]]; simpl; intros H;
      try discriminate H.
    injection H as H1 H2 H3.
    destruct (lower_char_y _ H1), (lower_char_e _ H2), (lower_char_s _ H3);
      subst; tauto.
  - simpl. intros H.
    repeat (destruct H as [<-|H]; [reflexivity|]). destruct H.
Qed.

Example dirname_script :
  Py.dirname "/srv/app/tools/cli/cli.py" = "/srv/app/tools/cli".
Proof. reflexivity. Qed.

Example dirname_root : Py.dirname "/" = "/" /\ Py.dirname "/etc" = "/".
Proof. split; reflexivity. Qed.

Example dirname_relative :
  Py.dirname "schema.sql" = "" /\ Py.dirname "sql//schema.sql" = "sql".
Proof. split; reflexivity. Qed.

Example join_cases :
  Py.join "/srv/app" "backend/sql" = "/srv/app/backend/sql" /\
  Py.join "/srv/app/" "backend" = "/srv/app/backend" /\
  Py.join "" "drop_all.sql" = "drop_all.sql" /\
  Py.join "/srv/app" "/etc/schema.sql" = "/etc/schema.sql".
Proof. repeat split; reflexivity. Qed.

Example resolve_default_schema :
  resolve_schema "/srv/app/tools/cli/cli.py" "backend/sql/schema.sql"
  = schema_file /\
  drop_all_of schema_file = drop_file.
Proof. split; reflexivity. Qed.

(** ** Runs of the monad *)

Lemma never_app f (a b : list Event) :
  never f (a ++ b) = never f a && never f b.
Proof. unfold never. apply forallb_app. Qed.

Lemma count_app f (a b : list Event) :
  count f (a ++ b) = count f a + count f b.
Proof. unfold count. rewrite filter_app, length_app. reflexivity. Qed.

Lemma never_count f (tr : list Event) :
  never f tr = true -> count f tr = 0.
Proof.
  unfold never, count. induction tr as [|e tr IH]; simpl; intros H.
  - reflexivity.
  - apply andb_true_iff in H. destruct H as [He Ht].
    destruct (f e); simpl in *; [discriminate | auto].
Qed.

Lemma count_never f (tr : list Event) :
  count f tr = 0 -> never f tr = true.
Proof.
  unfold never, count. induction tr as [|e tr IH]; simpl; intros H.
  - reflexivity.
  - destruct (f e); simpl in *; [discriminate | auto].
Qed.

Lemma run_print_then A h (m : M A) w :
  (print h ;; m) w = after [EvPrint h] (m w).
Proof. unfold bind, after. simpl. destruct (m w); reflexivity. Qed.

Lemma bind_silent A B (m : M A) (k : A -> M B) w a :
  m w = mkOut (Val a) w [] -> bind m k w = k a w.
Proof.
  intros H. unfold bind. rewrite H. destruct (k a w); reflexivity.
Qed.

Lemma bind_val A B (m : M A) (k : A -> M B) w a w1 t1 :
  m w = mkOut (Val a) w1 t1 -> bind m k w = after t1 (k a w1).
Proof.
  intros H. unfold bind. rewrite H. destruct (k a w1); reflexivity.
Qed.

Lemma bind_raise A B (m : M A) (k : A -> M B) w e w1 t1 :
  m w = mkOut (Raise e) w1 t1 -> bind m k w = mkOut (Raise e) w1 t1.
Proof. intros H. unfold bind. rewrite H. reflexivity. Qed.


Lemma bind_trace_prefix A B (m : M A) (k : A -> M B) (w : World) :
  exists t, trace (bind m k w) = trace (m w) ++ t.
Proof.
  unfold bind. destruct (m w) as [[a|e] w1 t1]; simpl.
  - destruct (k a w1) as [r w2 t2]. simpl. eauto.
  - exists []. rewrite app_nil_r. reflexivity.
Qed.


Lemma run_for_each_print A (g : A -> Msg) (l : list A) (w : World) :
  for_each l (fun x => print (g x)) w =
  mkOut (Val tt) w (map (fun x => EvPrint (g x)) l).
Proof.
  induction l as [|x l IH]; simpl.
  - reflexivity.
  - rewrite run_print_then, IH. reflexivity.
Qed.

(** ** Logs a command cannot produce *)

Section Avoids.

Variable f : Event -> bool.

Lemma avoids_ret A (a : A) : avoids f (ret a).
Proof. intros w. reflexivity. Qed.

Lemma avoids_raise A (e : Exn) : avoids f (@raise A e).
Proof. intros w. reflexivity. Qed.

Lemma avoids_bind A B (m : M A) (k : A -> M B) :
  avoids f m -> (forall a, avoids f (k a)) -> avoids f (bind m k).
Proof.
  intros Hm Hk w. unfold bind. specialize (Hm w).
  destruct (m w) as [[a|e] w1 t1]; simpl in *; auto.
  specialize (Hk a w1). destruct (k a w1) as [r w2 t2]; simpl in *.
  rewrite never_app, Hm. exact Hk.
Qed.

Lemma avoids_try_except A (m : M A) (h : Exn -> M A) :
  avoids f m -> (forall e, avoids f (h e)) -> avoids f (try_except m h).
Proof.
  intros Hm Hh w. unfold try_except. specialize (Hm w).
  destruct (m w) as [[a|e] w1 t1]; simpl in *; auto.
  specialize (Hh e w1). destruct (h e w1) as [r w2 t2]; simpl in *.
  rewrite never_app, Hm. exact Hh.
Qed.

Lemma avoids_try_finally A (m : M A) (fin : M unit) :
  avoids f m -> avoids f fin -> avoids f (try_finally m fin).
Proof.
  intros Hm Hf w. unfold try_finally. specialize (Hm w).
  destruct (m w) as [r w1 t1]; simpl in *.
  specialize (Hf w1). destruct (fin w1) as [[u|e] w2 t2]; simpl in *;
    rewrite never_app, Hm; exact Hf.
Qed.

Lemma avoids_for_each A (l : list A) (body : A -> M unit) :
  (forall x, avoids f (body x)) -> avoids f (for_each l body).
Proof.
  intros Hb. induction l as [|x l IH]; simpl.
  - apply avoids_ret.
  - apply avoids_bind; auto.
Qed.

Lemma avoids_emit e : f e = false -> avoids f (emit e).
Proof. intros H w. simpl. rewrite H. reflexivity. Qed.

Lemma avoids_print m : f (EvPrint m) = false -> avoids f (print m).
Proof. apply avoids_emit. Qed.

Lemma avoids_connect url :
  (forall b, f (EvConnect url b) = false) -> avoids f (psycopg2_connect url).
Proof.
  intros H w. unfold psycopg2_connect.
  destruct (server w url); simpl; rewrite H; reflexivity.
Qed.

Lemma avoids_execute A (s : Stmt A) :
  (forall b, f (EvExecute s b) = false) -> avoids f (cursor_execute s).
Proof.
  intros H w. unfold cursor_execute.
  destruct (conn w);
    [|destruct (stale w); simpl; rewrite ?H; reflexivity].
  destruct (hd false (faults w)); [simpl; rewrite H; reflexivity|].
  destruct (apply_stmt (run_batch w) s d) as [[d' a]|];
    simpl; rewrite H; reflexivity.
Qed.

Lemma avoids_commit :
  (forall b, f (EvCommit b) = false) -> avoids f conn_commit.
Proof.
  intros H w. unfold conn_commit.
  destruct (conn w);
    [|destruct (stale w); simpl; rewrite ?H; reflexivity].
  destruct (hd false (faults w)); simpl; rewrite H; reflexivity.
Qed.

Lemma avoids_rollback :
  f EvRollback = false -> f EvRollbackRaised = false ->
  avoids f conn_rollback.
Proof.
  intros H H' w. unfold conn_rollback.
  destruct (conn w); [|destruct (stale w)]; simpl; rewrite ?H, ?H';
    reflexivity.
Qed.

Lemma avoids_close : f EvClose = false -> avoids f close_session.
Proof.
  intros H w. unfold close_session, close_log.
  destruct (conn w); [|destruct (stale w)]; simpl; rewrite ?H; reflexivity.
Qed.

Lemma avoids_open path :
  (forall b, f (EvOpen path b) = false) -> avoids f (open_read path).
Proof.
  intros H w. unfold open_read.
  destruct (fs w path); simpl; rewrite H; reflexivity.
Qed.

Lemma avoids_input prompt :
  f (EvPrint prompt) = false -> (forall a, f (EvInput a) = false) ->
  avoids f (input prompt).
Proof.
  intros Hp Hi w. unfold input.
  destruct (stdin w); simpl; rewrite Hp, Hi; reflexivity.
Qed.

Lemma avoids_exists path : avoids f (os_path_exists path).
Proof. intros w. reflexivity. Qed.

Lemma avoids_abspath : avoids f script_abspath.
Proof. intros w. reflexivity. Qed.

Lemma avoids_getenv : avoids f os_getenv.
Proof. intros w. reflexivity. Qed.

Lemma avoids_bcrypt p : avoids f (bcrypt_hash p).
Proof. intros w. reflexivity. Qed.

End Avoids.

(** One step of a syntax-directed search; side conditions on the events are
    closed by evaluation. *)
Ltac avoid_step :=
  match goal with
  | |- avoids _ (bind _ _) => apply avoids_bind; [|intros ?]
  | |- avoids _ (try_except _ _) => apply avoids_try_except; [|intros ?]
  | |- avoids _ (try_finally _ _) => apply avoids_try_finally
  | |- avoids _ (for_each _ _) => apply avoids_for_each; intros ?
  | |- avoids _ (ret _) => apply avoids_ret
  | |- avoids _ (raise _) => apply avoids_raise
  | |- avoids _ (print _) => apply avoids_print; reflexivity
  | |- avoids _ (emit _) => apply avoids_emit; reflexivity
  | |- avoids _ (psycopg2_connect _) =>
      apply avoids_connect; intros ?; reflexivity
  | |- avoids _ (cursor_execute _) =>
      apply avoids_execute; intros ?; reflexivity
  | |- avoids _ conn_commit => apply avoids_commit; intros ?; reflexivity
  | |- avoids _ conn_rollback => apply avoids_rollback; reflexivity
  | |- avoids _ close_session => apply avoids_close; reflexivity
  | |- avoids _ (open_read _) => apply avoids_open; intros ?; reflexivity
  | |- avoids _ (input _) =>
      apply avoids_input; [reflexivity | intros ?; reflexivity]
  | |- avoids _ (os_path_exists _) => apply avoids_exists
  | |- avoids _ script_abspath => apply avoids_abspath
  | |- avoids _ os_getenv => apply avoids_getenv
  | |- avoids _ (bcrypt_hash _) => apply avoids_bcrypt
  | |- avoids _ (if ?b then _ else _) => destruct b
  | |- avoids _ (match ?x with _ => _ end) => destruct x
  end.

Ltac avoid := repeat avoid_step.

(** ** The committed database moves at commits only *)

Lemma honest_ret A (a : A) : honest (ret a).
Proof. intros w _. reflexivity. Qed.

Lemma honest_raise A (e : Exn) : honest (@raise A e).
Proof. intros w _. reflexivity. Qed.

Lemma honest_bind A B (m : M A) (k : A -> M B) :
  honest m -> (forall a, honest (k a)) -> honest (bind m k).
Proof.
  intros Hm Hk w. unfold bind. specialize (Hm w).
  destruct (m w) as [[a|e] w1 t1]; simpl in *; auto.
  specialize (Hk a w1). destruct (k a w1) as [r w2 t2]; simpl in *.
  rewrite never_app. intros H. apply andb_true_iff in H. destruct H as [H1 H2].
  rewrite (Hk H2). auto.
Qed.

Lemma honest_try_except A (m : M A) (h : Exn -> M A) :
  honest m -> (forall e, honest (h e)) -> honest (try_except m h).
Proof.
  intros Hm Hh w. unfold try_except. specialize (Hm w).
  destruct (m w) as [[a|e] w1 t1]; simpl in *; auto.
  specialize (Hh e w1). destruct (h e w1) as [r w2 t2]; simpl in *.
  rewrite never_app. intros H. apply andb_true_iff in H. destruct H as [H1 H2].
  rewrite (Hh H2). auto.
Qed.

Lemma honest_try_finally A (m : M A) (fin : M unit) :
  honest m -> honest fin -> honest (try_finally m fin).
Proof.
  intros Hm Hf w. unfold try_finally. specialize (Hm w).
  destruct (m w) as [r w1 t1]; simpl in *.
  specialize (Hf w1). destruct (fin w1) as [[u|e] w2 t2]; simpl in *;
    rewrite never_app; intros H; apply andb_true_iff in H;
    destruct H as [H1 H2]; rewrite (Hf H2); auto.
Qed.

Lemma honest_for_each A (l : list A) (body : A -> M unit) :
  (forall x, honest (body x)) -> honest (for_each l body).
Proof.
  intros Hb. induction l as [|x l IH]; simpl.
  - apply honest_ret.
  - apply honest_bind; auto.
Qed.

Lemma honest_emit e : honest (emit e).
Proof. intros w _. reflexivity. Qed.

Lemma honest_connect url : honest (psycopg2_connect url).
Proof.
  intros w _. unfold psycopg2_connect. destruct (server w url); reflexivity.
Qed.

Lemma honest_execute A (s : Stmt A) : honest (cursor_execute s).
Proof.
  intros w _. unfold cursor_execute.
  destruct (conn w); [|destruct (stale w); reflexivity].
  destruct (hd false (faults w)); [reflexivity|].
  destruct (apply_stmt (run_batch w) s d) as [[d' a]|]; [reflexivity|].
  destruct (ends_by s w); reflexivity.
Qed.

Lemma honest_commit : honest conn_commit.
Proof.
  intros w. unfold conn_commit.
  destruct (conn w); [|destruct (stale w); reflexivity].
  destruct (hd false (faults w)); simpl; [reflexivity | discriminate].
Qed.

Lemma honest_rollback : honest conn_rollback.
Proof.
  intros w _. unfold conn_rollback.
  destruct (conn w); [|destruct (stale w)]; reflexivity.
Qed.

Lemma honest_close : honest close_session.
Proof.
  intros w _. unfold close_session, closed. destruct (conn w); reflexivity.
Qed.

Lemma honest_open path : honest (open_read path).
Proof. intros w _. unfold open_read. destruct (fs w path); reflexivity. Qed.

Lemma honest_input prompt : honest (input prompt).
Proof. intros w _. unfold input. destruct (stdin w); reflexivity. Qed.

Lemma honest_exists path : honest (os_path_exists path).
Proof. intros w _. reflexivity. Qed.

Lemma honest_abspath : honest script_abspath.
Proof. intros w _. reflexivity. Qed.

Lemma honest_getenv : honest os_getenv.
Proof. intros w _. reflexivity. Qed.

Lemma honest_bcrypt p : honest (bcrypt_hash p).
Proof. intros w _. reflexivity. Qed.

Ltac honest_step :=
  match goal with
  | |- honest (bind _ _) => apply honest_bind; [|intros ?]
  | |- honest (try_except _ _) => apply honest_try_except; [|intros ?]
  | |- honest (try_finally _ _) => apply honest_try_finally
  | |- honest (for_each _ _) => apply honest_for_each; intros ?
  | |- honest (ret _) => apply honest_ret
  | |- honest (raise _) => apply honest_raise
  | |- honest (print _) => apply honest_emit
  | |- honest (emit _) => apply honest_emit
  | |- honest (psycopg2_connect _) => apply honest_connect
  | |- honest (cursor_execute _) => apply honest_execute
  | |- honest conn_commit => apply honest_commit
  | |- honest conn_rollback => apply honest_rollback
  | |- honest close_session => apply honest_close
  | |- honest (open_read _) => apply honest_open
  | |- honest (input _) => apply honest_input
  | |- honest (os_path_exists _) => apply honest_exists
  | |- honest script_abspath => apply honest_abspath
  | |- honest os_getenv => apply honest_getenv
  | |- honest (bcrypt_hash _) => apply honest_bcrypt
  | |- honest (if ?b then _ else _) => destruct b
  | |- honest (match ?x with _ => _ end) => destruct x
  end.

Lemma honest_dispatch (cli : DatabaseCLI) (args : Args) :
  honest (dispatch cli args).
Proof.
  unfold dispatch, migrate, migrate_schema, execute_sql_file, reset, status,
    seed, seed_user, seed_profile, cleanup_orphaned_menus, cleanup_execute,
    connect, disconnect.
  destruct (command args); repeat honest_step.
Qed.

(** ** Sessions *)

Arguments count : simpl never.
Arguments connected : simpl never.
Arguments never : simpl never.
Arguments disconnect : simpl never.
Arguments Sql.delete_orphans : simpl never.
Arguments Sql.orphans : simpl never.
Arguments Sql.stats : simpl never.
Arguments Sql.select_orphans : simpl never.

Lemma connected_app (a b : list Event) :
  connected (a ++ b) = connected a || connected b.
Proof. unfold connected. apply existsb_app. Qed.

Lemma never_connected (tr : list Event) :
  never is_session_event tr = true -> connected tr = false.
Proof.
  unfold never, connected. induction tr as [|e tr IH]; simpl; intros H.
  - reflexivity.
  - apply andb_true_iff in H. destruct H as [He Ht]. rewrite (IH Ht).
    destruct e as [u [|]| | | | | | | | |]; simpl in *; congruence.
Qed.

Lemma never_disconnect (tr : list Event) :
  never is_session_event tr = true -> count is_disconnect tr = 0.
Proof.
  unfold never, count. induction tr as [|e tr IH]; simpl; intros H.
  - reflexivity.
  - apply andb_true_iff in H. destruct H as [He Ht].
    destruct e; simpl in *; try discriminate; auto.
Qed.

Lemma count_cons f e (tr : list Event) :
  count f (e :: tr) = (if f e then 1 else 0) + count f tr.
Proof. unfold count. simpl. destruct (f e); reflexivity. Qed.

Lemma connected_cons e (tr : list Event) :
  connected (e :: tr) = is_connect_ok e || connected tr.
Proof. reflexivity. Qed.

Lemma never_cons f e (tr : list Event) :
  never f (e :: tr) = negb (f e) && never f tr.
Proof. reflexivity. Qed.

Lemma disconnect_run (self : DatabaseCLI) (w : World) :
  disconnect self w =
  mkOut (Val tt) (closed w) (EvDisconnect :: close_log w ++ [EvPrint MsgClosed]).
Proof.
  unfold disconnect, bind, emit, close_session, print, closed, close_log.
  destruct (conn w); [|destruct (stale w)]; reflexivity.
Qed.

Lemma run_finally_disconnect (self : DatabaseCLI) (body : M bool) (w : World) :
  try_finally body (disconnect self) w =
  mkOut (res (body w)) (closed (post (body w)))
        (trace (body w) ++
         EvDisconnect :: close_log (post (body w)) ++ [EvPrint MsgClosed]).
Proof.
  unfold try_finally. destruct (body w) as [r w1 t1]. rewrite disconnect_run.
  reflexivity.
Qed.

Lemma run_session_up (self : DatabaseCLI) (body : M bool) (w : World) :
  server w (db_url self) = true ->
  (ok <- connect self ;;
   if negb ok then ret false else try_finally body (disconnect self)) w =
  after [EvConnect (db_url self) true; EvPrint MsgConnected]
        (try_finally body (disconnect self) (set_conn (Some (durable w)) w)).
Proof.
  intros Hs. unfold bind at 1, connect, try_except, psycopg2_connect, bind.
  rewrite Hs. simpl.
  destruct (try_finally body (disconnect self) _); reflexivity.
Qed.

Lemma run_session_down (self : DatabaseCLI) (body : M bool) (w : World) :
  server w (db_url self) = false ->
  (ok <- connect self ;;
   if negb ok then ret false else try_finally body (disconnect self)) w =
  mkOut (Val false) w
        [EvConnect (db_url self) false;
         EvPrint (MsgConnectFailed OperationalError)].
Proof.
  intros Hs. unfold bind at 1, connect, try_except, psycopg2_connect, bind.
  rewrite Hs. reflexivity.
Qed.

Lemma close_log_quiet (w : World) :
  never is_session_event (close_log w ++ [EvPrint MsgClosed]) = true.
Proof.
  unfold close_log. destruct (conn w); [|destruct (stale w)]; reflexivity.
Qed.

Lemma session_balanced (self : DatabaseCLI) (body : M bool) (w : World) :
  avoids is_session_event body ->
  balanced w (db_url self)
    ((ok <- connect self ;;
      if negb ok then ret false
      else try_finally body (disconnect self)) w).
Proof.
  intros Hb. unfold balanced. destruct (server w (db_url self)) eqn:Hs.
  - rewrite (run_session_up self body w Hs), run_finally_disconnect.
    cbn [after res post trace app].
    set (w1 := set_conn (Some (durable w)) w).
    rewrite !connected_cons, !count_cons, connected_app, count_app,
      connected_cons, count_cons.
    rewrite (never_disconnect _ (Hb w1)), (never_connected _ (Hb w1)).
    rewrite (never_disconnect _ (close_log_quiet _)).
    cbn. auto.
  - rewrite (run_session_down self body w Hs). cbn. auto.
Qed.

Lemma balanced_print w url h (m : M bool) :
  balanced w url (m w) -> balanced w url ((print h ;; m) w).
Proof.
  rewrite run_print_then. unfold balanced. cbn [after res post trace app].
  rewrite connected_cons, count_cons. cbn [is_disconnect is_connect_ok orb plus].
  auto.
Qed.

(** C3 (amended).  Whatever the command and whatever fails on the way,
    disconnect is called exactly once when connect succeeded and never
    otherwise; a run in which no connect succeeded returns False, and a
    connect succeeds only when the server answers. *)
Theorem disconnect_once_when_connected
        (self : DatabaseCLI) (args : Args) (w : World) :
  let o := dispatch self args w in
  count is_disconnect (trace o) = (if connected (trace o) then 1 else 0) /\
  (connected (trace o) = true \/ res o = Val false) /\
  implb (connected (trace o)) (server w (db_url self)) = true.
Proof.
  cbv zeta. change (balanced w (db_url self) (dispatch self args w)).
  unfold dispatch. destruct (command args).
  - unfold migrate. apply balanced_print.
    erewrite bind_silent by reflexivity.
    erewrite bind_silent by reflexivity.
    destruct (fs w (resolve_schema (script_file w) (arg_schema args)));
      cbn [negb].
    + rewrite run_print_then. unfold balanced. cbn. auto.
    + apply session_balanced. unfold migrate_schema, execute_sql_file. avoid.
    + apply session_balanced. unfold migrate_schema, execute_sql_file. avoid.
  - unfold reset. apply balanced_print, session_balanced. avoid.
  - unfold status. apply balanced_print, session_balanced. avoid.
  - unfold seed. apply balanced_print, session_balanced.
    unfold seed_user, seed_profile. avoid.
  - unfold cleanup_orphaned_menus, cleanup_execute.
    apply balanced_print, session_balanced. avoid.
Qed.

(** C3 as stated does not hold: with the server down, reset returns False
    from the guard in front of its try block and disconnect is never
    called. *)
Lemma disconnect_skipped_when_connect_fails :
  let o := dispatch sample_cli (args_of Reset)
                    (offline (world_of fresh_db no_files [])) in
  trace o = [EvPrint MsgResetHeader;
             EvConnect sample_url false;
             EvPrint (MsgConnectFailed OperationalError)] /\
  res o = Val false /\
  count is_disconnect (trace o) <> 1.
Proof. vm_compute. repeat split. discriminate. Qed.

(** ** status *)

Lemma never_weaken (f g : Event -> bool) (tr : list Event) :
  (forall e, g e = true -> f e = true) ->
  never f tr = true -> never g tr = true.
Proof.
  intros Hfg. unfold never. rewrite !forallb_forall. intros H e He.
  specialize (H e He). destruct (g e) eqn:Hg; [|reflexivity].
  rewrite (Hfg e Hg) in H. discriminate.
Qed.

Lemma never_commit_ok (tr : list Event) :
  never is_commit tr = true -> never is_commit_ok tr = true.
Proof.
  apply never_weaken. intros [] H; try discriminate.
  destruct ok; [reflexivity | discriminate].
Qed.

Lemma status_honest (self : DatabaseCLI) : honest (status self).
Proof. unfold status, connect, disconnect. repeat honest_step. Qed.

(** C9.  On every path of status, the failing ones included, the log holds
    no commit, no rollback and no writing statement, and the committed
    database is the one the command started with. *)
Theorem status_read_only (self : DatabaseCLI) (w : World) :
  let o := status self w in
  never is_commit (trace o) = true /\
  never is_rollback (trace o) = true /\
  never is_write (trace o) = true /\
  durable (post o) = durable w.
Proof.
  cbv zeta.
  assert (Hc : avoids is_commit (status self))
    by (unfold status, connect, disconnect; avoid).
  assert (Hr : avoids is_rollback (status self))
    by (unfold status, connect, disconnect; avoid).
  assert (Hw : avoids is_write (status self))
    by (unfold status, connect, disconnect; avoid).
  repeat split; auto.
  apply status_honest, never_commit_ok, Hc.
Qed.

(** The exception path of status: the first query fails, the handler prints
    and returns False, and the session is closed without a rollback. *)
Example status_exception_path :
  let w := set_faults [true] (world_of fresh_db no_files []) in
  let o := status sample_cli w in
  res o = Val false /\
  trace o = [EvPrint MsgStatusHeader; EvConnect sample_url true;
             EvPrint MsgConnected; EvExecute SelectVersion false;
             EvPrint (MsgStatusError OperationalError);
             EvDisconnect; EvClose; EvPrint MsgClosed].
Proof. vm_compute. split; reflexivity. Qed.

(** ** execute_sql_file *)

Lemma closed_durable (w : World) : durable (closed w) = durable w.
Proof. unfold closed. destruct (conn w); reflexivity. Qed.

Lemma execute_sql_file_cases
      (self : DatabaseCLI) (filepath : string) (w : World) (d : Db) :
  conn w = Some d ->
  let o := execute_sql_file self filepath w in
  (res o = Val true \/ res o = Val false \/ res o = Raise InterfaceError) /\
  (res o = Val false ->
   count is_rollback (trace o) = 1 /\ never is_commit_ok (trace o) = true /\
   durable (post o) = durable w /\ conn (post o) = Some (durable w)) /\
  (res o = Val true ->
   count is_rollback (trace o) = 0 /\ file_goes_through w filepath d) /\
  ((forall s, fs w filepath <> Text s) ->
   res o = Val false /\
   trace o = [EvOpen filepath false; EvRollback;
              EvPrint (MsgFileError OSError)]) /\
  (forall s, fs w filepath = Text s ->
             hd false (faults w) = true \/
             (run_batch w s d = None /\ ends_session w s = false) ->
   res o = Val false /\
   trace o = [EvOpen filepath true; EvExecute (Batch s) false; EvRollback;
              EvPrint (MsgFileError OperationalError)]) /\
  (res o = Raise InterfaceError <-> batch_ends_session w filepath d) /\
  (res o = Raise InterfaceError ->
   (exists s, trace o = [EvOpen filepath true; EvExecute (Batch s) false;
                         EvRollbackRaised]) /\
   durable (post o) = durable w /\ conn (post o) = None /\
   stale (post o) = true) /\
  (res o <> Val true -> count is_rollback_call (trace o) = 1) /\
  ends_session (post o) = ends_session w.
Proof.
  intros Hc. cbv zeta.
  unfold execute_sql_file, try_except, bind, open_read, cursor_execute,
    conn_commit, conn_rollback, print, emit, ret, file_goes_through,
    batch_ends_session.
  destruct (fs w filepath) as [| |s] eqn:Hf; cbn; rewrite ?Hc; cbn;
    [ | | destruct (hd false (faults w)) eqn:H0; cbn; rewrite ?Hc; cbn;
          [ | destruct (run_batch w s d) as [d'|] eqn:Hb; cbn; rewrite ?Hc; cbn;
              [ destruct (hd false (tl (faults w))) eqn:H1; cbn
              | destruct (ends_session w s) eqn:He; cbn; rewrite ?Hc; cbn ] ] ].
  all: repeat split; intros; try reflexivity; try discriminate; eauto.
  all: try (exfalso; match goal with
                     | H : forall _, _ <> _ |- _ => eapply H; reflexivity
                     end).
  all: try match goal with
           | H : Text _ = Text _ |- _ => inversion H; subst; clear H
           end.
  all: try reflexivity.
  all: try match goal with
           | H : _ \/ _ |- _ => destruct H as [H|[H H']]; congruence
           end.
  all: try match goal with
           | H : exists _, _ |- _ =>
               destruct H as (s0 & Hs0 & G0 & Gb & Ge); congruence
           end.
  all: try (do 2 eexists; repeat split; eauto; fail).
  all: try (eexists; repeat split; eauto; fail).
  all: try congruence.
Qed.

Lemma run_file_ok (self : DatabaseCLI) (path : string) (w : World)
      (d d' : Db) (s : string) :
  conn w = Some d ->
  fs w path = Text s ->
  hd false (faults w) = false ->
  run_batch w s d = Some d' ->
  hd false (tl (faults w)) = false ->
  execute_sql_file self path w =
  mkOut (Val true)
        (set_durable d' (set_faults (tl (tl (faults w))) (set_conn (Some d') w)))
        [EvOpen path true; EvExecute (Batch s) true; EvCommit true;
         EvPrint (MsgFileOk path)].
Proof.
  intros Hc Hf H0 Hb H1.
  unfold execute_sql_file, try_except, bind, open_read, cursor_execute,
    conn_commit, conn_rollback, print, emit, ret.
  rewrite Hf; cbn. rewrite Hc, H0; cbn. rewrite Hb; cbn. rewrite H1.
  reflexivity.
Qed.




(** Without a session the handler cannot roll back either: the AttributeError
    of the call on None leaves execute_sql_file.  migrate never gets there,
    it calls execute_sql_file after connect succeeded. *)
Example execute_sql_file_without_session :
  let o := execute_sql_file sample_cli schema_file
                            (world_of fresh_db (project_files "CREATE") []) in
  res o = Raise AttributeError /\
  trace o = [EvOpen schema_file true].
Proof. vm_compute. split; reflexivity. Qed.

(** ** migrate *)

Lemma migrate_schema_run (self : DatabaseCLI) (sp : string) (w : World) (b : bool) :
  res (execute_sql_file self sp w) = Val b ->
  res (migrate_schema self sp w) = Val b /\
  post (migrate_schema self sp w) = post (execute_sql_file self sp w).
Proof.
  intros H. unfold migrate_schema. rewrite run_print_then.
  destruct (execute_sql_file self sp w) as [r w1 t1] eqn:He. simpl in H. subst r.
  unfold bind. rewrite He. destruct b; cbn; auto.
Qed.

Lemma nth_hd (l : list bool) : nth 0 l false = hd false l.
Proof. destruct l; reflexivity. Qed.

Lemma nth_tl n (l : list bool) : nth (S n) l false = nth n (tl l) false.
Proof. destruct l; [destruct n|]; reflexivity. Qed.






(** ** main *)

Lemma init_without_url (arg : option string) (w : World) :
  Py.truthy_opt arg = false -> Py.truthy_opt (environ w) = false ->
  init arg w = mkOut (Raise missing_url) w [].
Proof.
  intros Ha He. unfold init, bind, os_getenv, Py.or_else. rewrite Ha.
  destruct (environ w) as [u|]; [|reflexivity].
  simpl in He. rewrite He. reflexivity.
Qed.

(** C8.  With DATABASE_URL unset and no --db-url, main exits with status 1
    after printing the configuration error, and nothing else happens: no
    connect is attempted and the world is as before. *)
Theorem main_without_url_fails_fast (args : Args) (w : World) :
  arg_db_url args = None ->
  environ w = None ->
  let o := main args w in
  res o = Val 1 /\
  trace o = [EvPrint (MsgError missing_url)] /\
  never is_session_event (trace o) = true /\
  post o = w.
Proof.
  intros Ha He. cbv zeta. unfold main, try_except, bind.
  rewrite init_without_url by (rewrite ?Ha, ?He; reflexivity).
  cbn. repeat split.
Qed.

Lemma main_without_url_witness :
  let o := main (args_of Migrate) (unset_env (world_of fresh_db no_files [])) in
  res o = Val 1 /\
  trace o = [EvPrint (MsgError missing_url)] /\
  never is_session_event (trace o) = true /\
  post o = unset_env (world_of fresh_db no_files []).
Proof.
  cbv zeta.
  apply (main_without_url_fails_fast
           (args_of Migrate) (unset_env (world_of fresh_db no_files []))
           eq_refl eq_refl).
Defined.

Example main_with_env_url :
  res (main (args_of Status) (world_of fresh_db no_files [])) = Val 0.
Proof. vm_compute. reflexivity. Qed.

(** ** cleanup_orphaned_menus *)

Lemma run_execute_ok A (s : Stmt A) (w : World) (d d' : Db) (a : A) :
  conn w = Some d ->
  hd false (faults w) = false ->
  apply_stmt (run_batch w) s d = Some (d', a) ->
  cursor_execute s w =
  mkOut (Val a) (set_conn (Some d') (set_faults (tl (faults w)) w))
        [EvExecute s true].
Proof.
  intros Hc Hf Ha. unfold cursor_execute. rewrite Hc, Hf, Ha. reflexivity.
Qed.

Lemma run_execute_fault A (s : Stmt A) (w : World) (d : Db) :
  conn w = Some d ->
  hd false (faults w) = true ->
  cursor_execute s w =
  mkOut (Raise OperationalError) (set_faults (tl (faults w)) w)
        [EvExecute s false].
Proof.
  intros Hc Hf. unfold cursor_execute. rewrite Hc, Hf. reflexivity.
Qed.

Lemma In_insert_by A (le : A -> A -> bool) (x y : A) (l : list A) :
  In y (Sql.insert_by le x l) <-> y = x \/ In y l.
Proof.
  induction l as [|z l IH]; simpl.
  - intuition.
  - destruct (le x z); simpl; rewrite ?IH; intuition.
Qed.

Lemma In_order_by A (le : A -> A -> bool) (y : A) (l : list A) :
  In y (Sql.order_by le l) <-> In y l.
Proof.
  unfold Sql.order_by. induction l as [|z l IH]; simpl.
  - reflexivity.
  - rewrite In_insert_by, IH. intuition.
Qed.

Lemma In_select_orphans (d : Db) (m : Menu) :
  In m (Sql.orphans d) -> In (Sql.orphan_row d m) (Sql.select_orphans d).
Proof.
  intros H. unfold Sql.select_orphans. rewrite In_order_by.
  apply in_map. exact H.
Qed.

(** C7.  In dry-run mode cleanup_orphaned_menus sends no DELETE and no other
    writing statement and never commits, whatever the database holds and
    whatever fails, so the committed database is unchanged; when the server
    answers and the query goes through it returns True, having printed a line
    for every orphaned menu. *)
Theorem cleanup_dry_run_never_deletes (self : DatabaseCLI) (w : World) :
  let o := cleanup_orphaned_menus self true w in
  never is_delete_event (trace o) = true /\
  never is_write (trace o) = true /\
  never is_commit (trace o) = true /\
  durable (post o) = durable w /\
  (server w (db_url self) = true -> hd false (faults w) = false ->
   res o = Val true /\
   forall m, In m (Sql.orphans (durable w)) ->
             In (EvPrint (orphan_line (Sql.orphan_row (durable w) m)))
                (trace o)).
Proof.
  cbv zeta.
  assert (Hd : avoids is_delete_event (cleanup_orphaned_menus self true))
    by (unfold cleanup_orphaned_menus, connect, disconnect; avoid).
  assert (Hw : avoids is_write (cleanup_orphaned_menus self true))
    by (unfold cleanup_orphaned_menus, connect, disconnect; avoid).
  assert (Hc : avoids is_commit (cleanup_orphaned_menus self true))
    by (unfold cleanup_orphaned_menus, connect, disconnect; avoid).
  split; [apply Hd|]. split; [apply Hw|]. split; [apply Hc|].
  split.
  - generalize (honest_dispatch self (args_of CleanupOrphanedMenus) w).
    intros H. apply H, never_commit_ok, Hc.
  - intros Hs Hf. unfold cleanup_orphaned_menus.
    rewrite run_print_then, (run_session_up _ _ _ Hs), run_finally_disconnect.
    cbn [after res post trace].
    set (w1 := set_conn (Some (durable w)) w).
    unfold try_except.
    rewrite (bind_val _ _ _ _ _ _ _ _
               (run_execute_ok _ SelectOrphans w1 (durable w) (durable w) _
                               eq_refl Hf eq_refl)).
    destruct (Sql.select_orphans (durable w)) as [|r rows] eqn:Hrows.
    + cbn. split; [reflexivity|]. intros m Hm.
      apply In_select_orphans in Hm. rewrite Hrows in Hm. destruct Hm.
    + rewrite <- Hrows.
      assert (Hin : forall m, In m (Sql.orphans (durable w)) ->
                              In (Sql.orphan_row (durable w) m)
                                 (Sql.select_orphans (durable w)))
        by (intros m; apply In_select_orphans).
      clear Hrows. set (found := Sql.select_orphans (durable w)) in *.
      rewrite !run_print_then.
      rewrite (bind_val _ _ _ _ _ _ _ _ (run_for_each_print _ orphan_line found _)).
      cbn. split; [reflexivity|]. intros m Hm. repeat right.
      apply in_or_app. left. apply in_or_app. left.
      apply (in_map (fun x => EvPrint (orphan_line x))). auto.
Qed.

Lemma run_input (w : World) (prompt : Msg) (s : string) (rest : list string) :
  stdin w = s :: rest ->
  input prompt w =
  mkOut (Val s) (set_stdin rest w) [EvPrint prompt; EvInput (Some s)].
Proof. intros H. unfold input. rewrite H. reflexivity. Qed.

Lemma orphan_ids (d : Db) (m : Menu) :
  In m (menus d) ->
  existsb (Nat.eqb (menu_id m)) (map menu_id (Sql.orphans d)) =
  Sql.is_orphan d m.
Proof.
  intros Hm. destruct (Sql.is_orphan d m) eqn:Ho.
  - apply existsb_exists. exists (menu_id m). split; [|apply Nat.eqb_refl].
    apply in_map. unfold Sql.orphans. apply filter_In. auto.
  - destruct (existsb _ _) eqn:He; [|reflexivity].
    apply existsb_exists in He. destruct He as (i & Hi & Heq).
    apply Nat.eqb_eq in Heq. subst i.
    apply in_map_iff in Hi. destruct Hi as (m' & Hid & Hm').
    unfold Sql.orphans in Hm'. apply filter_In in Hm'. destruct Hm' as [_ Ho'].
    unfold Sql.is_orphan in *. rewrite Hid in Ho'. congruence.
Qed.

Lemma delete_orphans_menus (d : Db) :
  menus (fst (Sql.delete_orphans d)) =
  filter (fun m => negb (Sql.is_orphan d m)) (menus d).
Proof.
  unfold Sql.delete_orphans. simpl. apply filter_ext_in.
  intros m Hm. rewrite orphan_ids by exact Hm. reflexivity.
Qed.

Lemma select_orphans_nonempty (d : Db) :
  Sql.orphans d <> [] -> Sql.select_orphans d <> [].
Proof.
  intros H Hs. destruct (Sql.orphans d) as [|m l] eqn:Ho; [congruence|].
  assert (Hin : In m (Sql.orphans d)) by (rewrite Ho; left; reflexivity).
  apply In_select_orphans in Hin. rewrite Hs in Hin. destruct Hin.
Qed.

Lemma execute_logged A (s : Stmt A) (w : World) (d : Db) :
  conn w = Some d ->
  exists b, trace (cursor_execute s w) = [EvExecute s b].
Proof.
  intros Hc. unfold cursor_execute. rewrite Hc.
  destruct (hd false (faults w)); [eexists; reflexivity|].
  destruct (apply_stmt (run_batch w) s d) as [[d' a]|]; eexists; reflexivity.
Qed.

Lemma cleanup_execute_deletes (w : World) (d : Db) :
  conn w = Some d ->
  existsb is_delete_event (trace (cleanup_execute w)) = true.
Proof.
  intros Hc. unfold cleanup_execute.
  destruct (bind_trace_prefix _ _ (cursor_execute DeleteOrphans)
              (fun deleted_count =>
                 conn_commit ;;
                 print (MsgDeleted deleted_count) ;;
                 remaining <- cursor_execute CountOrphans ;;
                 (if (remaining =? 0)%nat
                  then print MsgAllRemoved
                  else print (MsgStillOrphans remaining)) ;;
                 stats <- cursor_execute SelectStats ;;
                 print MsgStatsHeader ;;
                 print (MsgTotalMenus (fst (fst stats))) ;;
                 print (MsgMenusWithRestaurants (snd stats)) ;;
                 print (MsgMenuAssignments (snd (fst stats))) ;;
                 ret true) w) as [t Ht].
  rewrite Ht. destruct (execute_logged _ DeleteOrphans w d Hc) as [b Hb].
  rewrite Hb. reflexivity.
Qed.

Lemma cleanup_execute_clean (w : World) (d : Db) :
  conn w = Some d -> faults w = [] ->
  res (cleanup_execute w) = Val true /\
  durable (post (cleanup_execute w)) = fst (Sql.delete_orphans d).
Proof.
  intros Hc Hf. unfold cleanup_execute, bind, cursor_execute, conn_commit.
  rewrite Hc, Hf. cbn.
  destruct (Sql.delete_orphans d) as [d' n] eqn:Hd. cbn.
  destruct (Nat.eqb _ 0); cbn; auto.
Qed.

Lemma never_prints A (f : Event -> bool) (g : A -> Msg) (l : list A) :
  (forall x, f (EvPrint (g x)) = false) ->
  never f (map (fun x => EvPrint (g x)) l) = true.
Proof.
  intros H. induction l as [|x l IH]; [reflexivity|].
  simpl map. rewrite never_cons, H, IH. reflexivity.
Qed.

(** C1 (amended).  Once the orphans are listed, the answer is lower-cased
    before it is compared: an answer whose lower-case form is yes sends the
    DELETE (and, with no engine failure, leaves exactly the menus that have a
    restaurant); any other answer returns False with no DELETE, no commit and
    the committed database, the menus table included, unchanged. *)
Theorem cleanup_confirmation_gate
        (self : DatabaseCLI) (w : World) (response : string)
        (rest : list string) :
  server w (db_url self) = true ->
  hd false (faults w) = false ->
  Sql.orphans (durable w) <> [] ->
  stdin w = response :: rest ->
  let o := cleanup_orphaned_menus self false w in
  (Py.lower response = "yes" ->
   existsb is_delete_event (trace o) = true /\
   (tl (faults w) = [] ->
    res o = Val true /\
    menus (durable (post o)) =
    filter (fun m => negb (Sql.is_orphan (durable w) m)) (menus (durable w)))) /\
  (Py.lower response <> "yes" ->
   res o = Val false /\
   never is_delete_event (trace o) = true /\
   never is_write (trace o) = true /\
   never is_commit (trace o) = true /\
   durable (post o) = durable w).
Proof.
  cbv zeta. intros Hs Hf Ho Hin.
  apply select_orphans_nonempty in Ho.
  unfold cleanup_orphaned_menus.
  rewrite run_print_then, (run_session_up _ _ _ Hs), run_finally_disconnect.
  cbn [after res post trace]. rewrite closed_durable.
  set (w1 := set_conn (Some (durable w)) w).
  unfold try_except.
  rewrite (bind_val _ _ _ _ _ _ _ _
             (run_execute_ok _ SelectOrphans w1 (durable w) (durable w) _
                             eq_refl Hf eq_refl)).
  set (found := Sql.select_orphans (durable w)) in *.
  destruct found as [|r rows] eqn:Hfound; [congruence|].
  rewrite <- Hfound. clear Hfound Ho.
  rewrite !run_print_then.
  rewrite (bind_val _ _ _ _ _ _ _ _ (run_for_each_print _ _ found _)).
  rewrite !run_print_then.
  set (w2 := set_conn _ _).
  rewrite (bind_val _ _ _ _ _ _ _ _ (run_input w2 MsgConfirmPrompt response rest Hin)).
  set (w3 := set_stdin _ _).
  split.
  - intros Hyes. rewrite Hyes. cbn [String.eqb Ascii.eqb Bool.eqb negb].
    assert (Hc3 : conn w3 = Some (durable w)) by reflexivity.
    pose proof (cleanup_execute_deletes w3 (durable w) Hc3) as Hdel.
    split.
    + destruct (cleanup_execute w3) as [[b|e] wt tt];
        cbn [after res post trace] in *;
        [|destruct ((conn_rollback;; print (MsgCleanupError e);; ret false) wt)
            as [r0 w0 t2]];
        cbn [after res post trace];
        repeat (rewrite existsb_app
                || cbn [existsb is_delete_event is_delete orb]);
        rewrite Hdel, ?orb_true_r; reflexivity.
    + intros Hnil.
      assert (Hf3 : faults w3 = []) by exact Hnil.
      destruct (cleanup_execute_clean w3 (durable w) Hc3 Hf3) as [Hr Hp].
      destruct (cleanup_execute w3) as [rt wt tt]; cbn [after res post trace] in *.
      subst rt. cbn [after res post trace].
      rewrite Hp. split; [reflexivity|]. apply delete_orphans_menus.
  - intros Hno. apply String.eqb_neq in Hno. rewrite Hno. cbn [negb].
    rewrite run_print_then. cbn.
    rewrite !never_cons, !never_app, !never_prints by reflexivity.
    repeat split.
Qed.

Lemma cleanup_confirmation_witness :
  let w := world_of menu_db no_files ["Yes"] in
  let o := cleanup_orphaned_menus sample_cli false w in
  existsb is_delete_event (trace o) = true /\
  (tl (faults w) = [] ->
   res o = Val true /\
   menus (durable (post o)) =
   filter (fun m => negb (Sql.is_orphan (durable w) m)) (menus (durable w))).
Proof.
  cbv zeta.
  refine (proj1 (cleanup_confirmation_gate
                   sample_cli (world_of menu_db no_files ["Yes"]) "Yes" []
                   eq_refl eq_refl _ eq_refl) eq_refl).
  vm_compute. discriminate.
Defined.

(** C1 as stated does not hold: the answer YES is not the literal yes, and
    the deletion goes ahead all the same. *)
Lemma cleanup_accepts_uppercase_yes :
  let w := world_of menu_db no_files ["YES"] in
  let o := cleanup_orphaned_menus sample_cli false w in
  "YES" <> "yes" /\
  res o = Val true /\
  existsb is_delete_event (trace o) = true /\
  map menu_id (menus (durable w)) = [1; 2] /\
  map menu_id (menus (durable (post o))) = [1].
Proof. vm_compute. repeat split. discriminate. Qed.

Lemma cleanup_dry_run_witness :
  let w := world_of menu_db no_files [] in
  let o := cleanup_orphaned_menus sample_cli true w in
  res o = Val true /\
  forall m, In m (Sql.orphans (durable w)) ->
            In (EvPrint (orphan_line (Sql.orphan_row (durable w) m)))
               (trace o).
Proof.
  cbv zeta.
  destruct (cleanup_dry_run_never_deletes
              sample_cli (world_of menu_db no_files []))
    as (_ & _ & _ & _ & H).
  apply H; reflexivity.
Defined.

(** ** Invariants of the world *)

Section Preserves.

Variable I : World -> Prop.
Hypothesis I_conn : forall w d, I w -> I (set_conn (Some d) w).
Hypothesis I_durable : forall w d, I w -> I (set_durable d w).
Hypothesis I_faults : forall w f, I w -> I (set_faults f w).
Hypothesis I_stdin : forall w s, I w -> I (set_stdin s w).
Hypothesis I_entropy : forall w s, I w -> I (set_entropy s w).

Lemma preserves_ret A (a : A) : preserves I (ret a).
Proof. intros w H. exact H. Qed.

Lemma preserves_raise A (e : Exn) : preserves I (@raise A e).
Proof. intros w H. exact H. Qed.

Lemma preserves_bind A B (m : M A) (k : A -> M B) :
  preserves I m -> (forall a, preserves I (k a)) -> preserves I (bind m k).
Proof.
  intros Hm Hk w Hw. unfold bind. specialize (Hm w Hw).
  destruct (m w) as [[a|e] w1 t1]; simpl in *; auto.
  specialize (Hk a w1 Hm). destruct (k a w1) as [r w2 t2]; simpl in *. exact Hk.
Qed.

Lemma preserves_try_except A (m : M A) (h : Exn -> M A) :
  preserves I m -> (forall e, preserves I (h e)) ->
  preserves I (try_except m h).
Proof.
  intros Hm Hh w Hw. unfold try_except. specialize (Hm w Hw).
  destruct (m w) as [[a|e] w1 t1]; simpl in *; auto.
  specialize (Hh e w1 Hm). destruct (h e w1) as [r w2 t2]; simpl in *. exact Hh.
Qed.

Lemma preserves_for_each A (l : list A) (body : A -> M unit) :
  (forall x, preserves I (body x)) -> preserves I (for_each l body).
Proof.
  intros Hb. induction l as [|x l IH]; simpl.
  - apply preserves_ret.
  - apply preserves_bind; auto.
Qed.

Lemma preserves_emit e : preserves I (emit e).
Proof. intros w H. exact H. Qed.

Lemma preserves_execute A (s : Stmt A) :
  (forall w, ends_by s w = false) -> preserves I (cursor_execute s).
Proof.
  intros Hs w H. unfold cursor_execute.
  destruct (conn w); [|destruct (stale w); exact H].
  destruct (hd false (faults w)); [simpl; auto|].
  destruct (apply_stmt (run_batch w) s d) as [[d' a]|]; simpl; auto.
  rewrite Hs. auto.
Qed.

Lemma preserves_commit : preserves I conn_commit.
Proof.
  intros w H. unfold conn_commit.
  destruct (conn w); [|destruct (stale w); exact H].
  destruct (hd false (faults w)); simpl; auto.
Qed.

Lemma preserves_rollback : preserves I conn_rollback.
Proof.
  intros w H. unfold conn_rollback.
  destruct (conn w); [|destruct (stale w)]; simpl; auto.
Qed.

Lemma preserves_input prompt : preserves I (input prompt).
Proof. intros w H. unfold input. destruct (stdin w); simpl; auto. Qed.

Lemma preserves_bcrypt p : preserves I (bcrypt_hash p).
Proof. intros w H. unfold bcrypt_hash. simpl. auto. Qed.

End Preserves.

Ltac preserve_step :=
  match goal with
  | |- preserves _ (bind _ _) => apply preserves_bind; [|intros ?]
  | |- preserves _ (try_except _ _) => apply preserves_try_except; [|intros ?]
  | |- preserves _ (for_each _ _) => apply preserves_for_each; intros ?
  | |- preserves _ (ret _) => apply preserves_ret
  | |- preserves _ (raise _) => apply preserves_raise
  | |- preserves _ (print _) => apply preserves_emit
  | |- preserves _ (emit _) => apply preserves_emit
  | |- preserves _ (cursor_execute _) =>
      apply preserves_execute; [.. | intros ?; reflexivity]
  | |- preserves _ conn_commit => apply preserves_commit
  | |- preserves _ conn_rollback => apply preserves_rollback
  | |- preserves _ (input _) => apply preserves_input
  | |- preserves _ (bcrypt_hash _) => apply preserves_bcrypt
  | |- preserves _ (if ?b then _ else _) => destruct b
  | |- preserves _ (match ?x with _ => _ end) => destruct x
  end.

Lemma open_conn w d : session_open w -> session_open (set_conn (Some d) w).
Proof. intros _. discriminate. Qed.

Lemma open_same_conn (w w' : World) :
  conn w' = conn w -> session_open w -> session_open w'.
Proof. unfold session_open. intros ->. auto. Qed.

Ltac stays_open :=
  repeat preserve_step;
  try (intros; first [apply open_conn; assumption
                     | eapply open_same_conn; [reflexivity | assumption]]).

Lemma seed_loop_stays_open : preserves session_open (for_each sample_users seed_user).
Proof. unfold seed_user, seed_profile. stays_open. Qed.

(** ** seed *)

Lemma seed_loop_quiet (f : Event -> bool) :
  (forall A (s : Stmt A) b, f (EvExecute s b) = false) ->
  (forall m, f (EvPrint m) = false) ->
  avoids f (for_each sample_users seed_user).
Proof.
  intros He Hp. apply avoids_for_each. intros [[[un em] pw] ty].
  unfold seed_user, seed_profile.
  repeat first
    [ apply avoids_bind; [|intros ?]
    | apply avoids_bcrypt
    | apply avoids_execute; intros ?; apply He
    | apply avoids_print; apply Hp
    | apply avoids_ret
    | match goal with
      | |- avoids _ (if ?b then _ else _) => destruct b
      | |- avoids _ (match ?x with _ => _ end) => destruct x
      end ].
Qed.

Lemma seed_loop_durable (w : World) :
  durable (post (for_each sample_users seed_user w)) = durable w.
Proof.
  assert (H : honest (for_each sample_users seed_user))
    by (unfold seed_user, seed_profile; repeat honest_step).
  apply H. apply seed_loop_quiet; reflexivity.
Qed.

Ltac seed_run Hs HL w1 :=
  unfold seed; rewrite run_print_then, (run_session_up _ _ _ Hs),
    run_finally_disconnect; fold w1;
  unfold try_except; rewrite run_print_then;
  first [ rewrite (bind_val _ _ _ _ _ _ _ _ HL)
        | rewrite (bind_raise _ _ _ _ _ _ _ _ HL) ];
  unfold bind, conn_commit, conn_rollback.

Lemma seed_cases (self : DatabaseCLI) (w : World) : seed_outcome self w.
Proof.
  destruct (server w (db_url self)) eqn:Hs.
  - set (w1 := set_conn (Some (durable w)) w).
    assert (Hopen : session_open (post (for_each sample_users seed_user w1)))
      by (apply seed_loop_stays_open; discriminate).
    pose proof (seed_loop_durable w1) as Hdur.
    destruct (for_each sample_users seed_user w1) as [[[]|e] wl tr] eqn:HL;
      cbn [post] in *;
      (destruct (conn wl) as [dl|] eqn:Hc; [|elim Hopen; exact Hc]).
    + destruct (hd false (faults wl)) eqn:Hf.
      * apply (@SeedCommitFailed self w wl tr Hs HL);
          seed_run Hs HL w1; rewrite Hc, Hf; cbn; rewrite ?Hc; cbn;
          [reflexivity | exact Hdur | rewrite <- ?app_assoc; reflexivity].
      * apply (@SeedCommitted self w wl tr dl Hs HL Hc);
          seed_run Hs HL w1; rewrite Hc, Hf; cbn;
          unfold closed, close_log; cbn; rewrite ?Hc; cbn;
          [reflexivity | reflexivity | rewrite <- ?app_assoc; reflexivity].
    + apply (@SeedLoopFailed self w e wl tr Hs HL);
        seed_run Hs HL w1; cbn; rewrite ?Hc; cbn;
        unfold closed, close_log; cbn; rewrite ?Hc; cbn;
        [reflexivity | exact Hdur | rewrite <- ?app_assoc; reflexivity].
  - apply (@SeedDown self w Hs);
      unfold seed; rewrite run_print_then, (run_session_down _ _ _ Hs);
      reflexivity.
Qed.

Lemma has_user_new (d : Db) (i : nat) (u e h t : string) :
  existsb (fun r => username r =? u)
          (users d ++ [{| user_id := i; username := u; email := e;
                          password_hash := h; user_type := t |}]) = true.
Proof.
  rewrite existsb_app. simpl. rewrite String.eqb_refl, orb_true_r. reflexivity.
Qed.

Lemma has_user_grows (d : Db) (row : User) (n : string) :
  has_user d n = true ->
  existsb (fun r => username r =? n) (users d ++ [row]) = true.
Proof. unfold has_user. intros H. rewrite existsb_app, H. reflexivity. Qed.

Lemma logged_app_l u (t1 t2 : list Event) :
  user_insert_logged u t1 -> user_insert_logged u (t1 ++ t2).
Proof.
  destruct u as [[[un em] pw] ty]. intros [h H]. exists h.
  apply in_or_app. auto.
Qed.

Lemma logged_app_r u (t1 t2 : list Event) :
  user_insert_logged u t2 -> user_insert_logged u (t1 ++ t2).
Proof.
  destruct u as [[[un em] pw] ty]. intros [h H]. exists h.
  apply in_or_app. auto.
Qed.

Lemma seed_profile_val (id : nat) (un ty : string) (w : World) (d : Db) :
  conn w = Some d ->
  res (seed_profile id un ty w) = Val tt ->
  exists d', conn (post (seed_profile id un ty w)) = Some d' /\
             users d' = users d.
Proof.
  intros Hc. unfold seed_profile, cursor_execute.
  repeat match goal with
         | |- context [if (ty =? ?s)%string then _ else _] =>
             destruct (ty =? s)%string
         end;
    rewrite ?Hc; try destruct (hd false (faults w)); cbn;
    intros Hx; try discriminate Hx; eauto.
Qed.

Lemma seed_user_val (u : string * string * string * string) (w : World) (d : Db) :
  conn w = Some d ->
  res (seed_user u w) = Val tt ->
  user_insert_logged u (trace (seed_user u w)) /\
  exists d', conn (post (seed_user u w)) = Some d' /\
             has_user d' (sample_name u) = true /\
             (forall n, has_user d n = true -> has_user d' n = true).
Proof.
  destruct u as [[[un em] pw] ty]. intros Hc.
  unfold seed_user, sample_name, user_insert_logged. cbn [fst].
  erewrite bind_val by reflexivity.
  set (h := hashpw w pw (hd "" (entropy w))).
  set (w1 := set_entropy _ w).
  assert (Hc1 : conn w1 = Some d) by exact Hc.
  destruct (hd false (faults w1)) eqn:Hf1.
  - rewrite (bind_raise _ _ _ _ _ _ _ _
               (run_execute_fault _ (InsertUser un em h ty) w1 d Hc1 Hf1)).
    cbn. intros Hx. discriminate Hx.
  - destruct (Sql.insert_user un em h ty d) as [d1 r] eqn:Hins.
    assert (Ha : apply_stmt (run_batch w1) (InsertUser un em h ty) d
                 = Some (d1, r)) by (cbn [apply_stmt]; rewrite Hins; reflexivity).
    rewrite (bind_val _ _ _ _ _ _ _ _
               (run_execute_ok _ (InsertUser un em h ty) w1 d d1 r Hc1 Hf1 Ha)).
    set (w2 := set_conn (Some d1) _).
    unfold Sql.insert_user in Hins.
    destruct (existsb (fun r => username r =? un) (users d)) eqn:Hex;
      inversion Hins; subst d1 r; clear Hins.
    + cbn. intros _. split; [exists h; left; reflexivity|].
      exists d. auto.
    + rewrite run_print_then. cbn [after res post trace app].
      set (d1 := with_users _ d) in *.
      set (i := Sql.fresh_id _) in *.
      intros Hv. destruct (seed_profile_val i un ty w2 d1 eq_refl Hv)
        as (d' & Hc' & Hu').
      split; [exists h; left; reflexivity|].
      exists d'. split; [exact Hc'|]. unfold has_user. rewrite Hu'.
      split; [apply has_user_new|]. intros n. apply has_user_grows.
Qed.

Lemma seed_loop_val (l : list (string * string * string * string)) :
  forall (w : World) (d : Db),
  conn w = Some d ->
  res (for_each l seed_user w) = Val tt ->
  (forall u, In u l -> user_insert_logged u (trace (for_each l seed_user w))) /\
  exists d', conn (post (for_each l seed_user w)) = Some d' /\
             (forall u, In u l -> has_user d' (sample_name u) = true) /\
             (forall n, has_user d n = true -> has_user d' n = true).
Proof.
  induction l as [|x l IH]; intros w d Hc.
  - cbn. intros _. split; [intros u []|]. exists d. split; [exact Hc|].
    split; [intros u []|auto].
  - cbn [for_each]. unfold bind.
    pose proof (seed_user_val x w d Hc) as Hx.
    destruct (seed_user x w) as [[[]|e] w1 t1]; cbn [res post trace] in *;
      [|intros Hd; discriminate Hd].
    destruct (Hx eq_refl) as (Hlog & d1 & Hc1 & Hn1 & Hmono1).
    specialize (IH w1 d1 Hc1).
    destruct (for_each l seed_user w1) as [r2 w2 t2]; cbn [res post trace] in *.
    intros Hr. destruct (IH Hr) as (Hlogs & d2 & Hc2 & Hn2 & Hmono2).
    split.
    + intros u [Hu|Hu]; [subst u; apply logged_app_l; exact Hlog|].
      apply logged_app_r. auto.
    + exists d2. split; [exact Hc2|]. split; [|auto].
      intros u [Hu|Hu]; [subst u; auto|auto].
Qed.

Lemma seed_user_present (u : string * string * string * string)
      (w : World) (d : Db) :
  conn w = Some d ->
  has_user d (sample_name u) = true ->
  conn (post (seed_user u w)) = Some d /\
  never is_profile_insert (trace (seed_user u w)) = true.
Proof.
  destruct u as [[[un em] pw] ty]. unfold sample_name, has_user. cbn [fst].
  intros Hc Hex. unfold seed_user, bind, bcrypt_hash, cursor_execute.
  cbn. rewrite Hc. destruct (hd false (faults w)); cbn; [auto|].
  unfold Sql.insert_user. rewrite Hex. cbn. auto.
Qed.

Lemma seed_loop_present (l : list (string * string * string * string)) (d : Db) :
  (forall u, In u l -> has_user d (sample_name u) = true) ->
  forall w, conn w = Some d ->
  conn (post (for_each l seed_user w)) = Some d /\
  never is_profile_insert (trace (for_each l seed_user w)) = true.
Proof.
  induction l as [|x l IH]; intros Hall w Hc.
  - cbn. auto.
  - cbn [for_each]. unfold bind.
    destruct (seed_user_present x w d Hc (Hall x (or_introl eq_refl)))
      as [Hc1 Hn1].
    destruct (seed_user x w) as [[[]|e] w1 t1]; cbn [res post trace] in *;
      [|auto].
    destruct (IH (fun u Hu => Hall u (or_intror Hu)) w1 Hc1) as [Hc2 Hn2].
    destruct (for_each l seed_user w1) as [r2 w2 t2]; cbn [res post trace] in *.
    rewrite never_app, Hn1, Hn2. auto.
Qed.

Lemma seed_user_profile_iff (u : string * string * string * string)
      (w : World) (d : Db) :
  In u sample_users ->
  conn w = Some d ->
  hd false (faults w) = false ->
  count is_profile_insert (trace (seed_user u w)) =
  match returned_id u w d with Some _ => 1 | None => 0 end.
Proof.
  intros Hu Hc Hf. unfold sample_users in Hu. cbn [In] in Hu.
  destruct Hu as [<-|[<-|[<-|[<-|[]]]]];
    unfold returned_id, seed_user, seed_profile, bind, bcrypt_hash,
      cursor_execute;
    cbn; rewrite Hc, Hf; cbn; unfold Sql.insert_user;
    (destruct (existsb _ (users d)); cbn; [reflexivity|]);
    destruct (hd false (tl (faults w))); reflexivity.
Qed.

Lemma seed_user_rows (u : string * string * string * string)
      (w : World) (d : Db) :
  In u sample_users ->
  conn w = Some d ->
  faults w = [] ->
  exists d', conn (post (seed_user u w)) = Some d' /\
             length (users d') =
             length (users d) +
             match returned_id u w d with Some _ => 1 | None => 0 end /\
             profile_rows d' =
             profile_rows d +
             match returned_id u w d with Some _ => 1 | None => 0 end.
Proof.
  intros Hu Hc Hf. unfold sample_users in Hu. cbn [In] in Hu.
  destruct Hu as [<-|[<-|[<-|[<-|[]]]]];
    unfold returned_id, seed_user, seed_profile, bind, bcrypt_hash,
      cursor_execute;
    cbn; rewrite Hc, Hf; cbn; unfold Sql.insert_user;
    (destruct (existsb _ (users d)); cbn;
     [exists d; repeat split; lia|]);
    eexists; (split; [reflexivity|]); unfold profile_rows; cbn;
    rewrite ?length_app; cbn; lia.
Qed.


Lemma seed_user_own_insert (u : string * string * string * string)
      (w : World) (d : Db) (id : nat) :
  In u sample_users ->
  conn w = Some d ->
  hd false (faults w) = false ->
  returned_id u w d = Some id ->
  count (is_profile_insert_for (sample_type u) id) (trace (seed_user u w)) = 1.
Proof.
  intros Hu Hc Hf. unfold sample_users in Hu. cbn [In] in Hu.
  destruct Hu as [<-|[<-|[<-|[<-|[]]]]];
    unfold returned_id, seed_user, seed_profile, bind, bcrypt_hash,
      cursor_execute, sample_type;
    cbn; rewrite Hc, Hf; cbn; unfold Sql.insert_user;
    (destruct (existsb _ (users d)); cbn; [intros H; discriminate H|]);
    intros H; injection H as <-;
    destruct (hd false (tl (faults w))); unfold count; cbn;
    rewrite Nat.eqb_refl; reflexivity.
Qed.

Lemma seed_user_own_row (u : string * string * string * string)
      (w : World) (d : Db) :
  In u sample_users ->
  conn w = Some d ->
  faults w = [] ->
  exists d', conn (post (seed_user u w)) = Some d' /\
             forall ty,
               profile_users d' ty =
               profile_users d ty ++
               match returned_id u w d with
               | Some id => if ty =? sample_type u then [id] else []
               | None => []
               end.
Proof.
  intros Hu Hc Hf. unfold sample_users in Hu. cbn [In] in Hu.
  destruct Hu as [<-|[<-|[<-|[<-|[]]]]];
    unfold returned_id, seed_user, seed_profile, bind, bcrypt_hash,
      cursor_execute, sample_type;
    cbn; rewrite Hc, Hf; cbn; unfold Sql.insert_user;
    (destruct (existsb _ (users d)); cbn;
     [exists d; split; [reflexivity|]; intros ty; rewrite app_nil_r;
      reflexivity|]);
    eexists; (split; [reflexivity|]); intros ty; unfold profile_users;
    cbn [customers vendors drivers admins Sql.insert_customer
         Sql.insert_vendor Sql.insert_driver Sql.insert_admin
         with_customers with_vendors with_drivers with_admins with_users];
    repeat match goal with
           | |- context [String.eqb ty ?s] =>
               destruct (String.eqb_spec ty s) as [->|?]
           end;
    cbn; rewrite ?map_app, ?app_nil_r; reflexivity.
Qed.

(** C5.  For each sample tuple whose users insert goes through, the loop
    body sends a profile insert exactly when RETURNING id handed back a row
    (one statement then, none on a conflict-skip), and that one statement is
    the insert into the table of the tuple's own role, carrying the id that
    was handed back.  With no engine failure the users table grows by one
    row or not at all, and the profile tables with it: when an id came back,
    the table of the tuple's role gains one row for that id and the other
    three stay as they were; on a conflict-skip all four stay as they were.
    Consequently, after a run of seed that returned True, a second run on
    the database it left changes nothing: the committed database is the same
    (no new users row, no profile row) and no profile insert is sent. *)
Theorem seed_profile_iff_id_and_idempotent
        (self : DatabaseCLI) (u : string * string * string * string)
        (w0 : World) (d0 : Db) (w w2 : World) :
  (In u sample_users -> conn w0 = Some d0 -> hd false (faults w0) = false ->
   count is_profile_insert (trace (seed_user u w0)) =
   match returned_id u w0 d0 with Some _ => 1 | None => 0 end) /\
  (In u sample_users -> conn w0 = Some d0 -> hd false (faults w0) = false ->
   forall id, returned_id u w0 d0 = Some id ->
   count (is_profile_insert_for (sample_type u) id) (trace (seed_user u w0))
   = 1) /\
  (In u sample_users -> conn w0 = Some d0 -> faults w0 = [] ->
   exists d', conn (post (seed_user u w0)) = Some d' /\
              length (users d') =
              length (users d0) +
              match returned_id u w0 d0 with Some _ => 1 | None => 0 end /\
              profile_rows d' =
              profile_rows d0 +
              match returned_id u w0 d0 with Some _ => 1 | None => 0 end /\
              forall ty,
                profile_users d' ty =
                profile_users d0 ty ++
                match returned_id u w0 d0 with
                | Some id => if ty =? sample_type u then [id] else []
                | None => []
                end) /\
  (res (seed self w) = Val true ->
   durable w2 = durable (post (seed self w)) ->
   durable (post (seed self w2)) = durable w2 /\
   never is_profile_insert (trace (seed self w2)) = true).
Proof.
  split; [apply seed_user_profile_iff|].
  split; [intros Hu Hc Hf id Hid; apply (seed_user_own_insert u w0 d0 id);
          assumption|].
  split.
  { intros Hu Hc Hf.
    destruct (seed_user_rows u w0 d0 Hu Hc Hf) as (d' & Hc' & Hn & Hp).
    destruct (seed_user_own_row u w0 d0 Hu Hc Hf) as (d'' & Hc'' & Hown).
    assert (d'' = d') by congruence. subst d''.
    exists d'. auto. }
  intros Hok H2.
  assert (Hall : forall u, In u sample_users ->
                           has_user (durable w2) (sample_name u) = true).
  { destruct (seed_cases self w)
      as [Hs Hr Hd Ht | wl tr dl Hs HL Hc Hr Hd Ht | wl tr Hs HL Hr Hd Ht
          | e wl tr Hs HL Hr Hd Ht]; try congruence.
    assert (Hc0 : conn (set_conn (Some (durable w)) w) = Some (durable w))
      by reflexivity.
    generalize (seed_loop_val sample_users _ _ Hc0).
    rewrite HL. cbn [res post trace]. intros H.
    destruct (H eq_refl) as (_ & d' & Hc' & Hn & _).
    rewrite H2, Hd. assert (dl = d') by congruence. subst d'. exact Hn. }
  assert (Hc2 : conn (set_conn (Some (durable w2)) w2) = Some (durable w2))
    by reflexivity.
  destruct (seed_loop_present sample_users (durable w2) Hall _ Hc2)
    as [Hcl Hnl].
  destruct (seed_cases self w2)
    as [Hs Hr Hd Ht | wl tr dl Hs HL Hc Hr Hd Ht | wl tr Hs HL Hr Hd Ht
        | e wl tr Hs HL Hr Hd Ht];
    try (rewrite HL in Hcl, Hnl; cbn [post trace] in Hcl, Hnl);
    rewrite Ht; unfold seed_prefix, seed_credentials, goodbye;
    rewrite ?never_app, ?Hnl; split; try reflexivity; try assumption.
  congruence.
Qed.


Lemma seed_twice_witness :
  let w := world_of fresh_db no_files [] in
  let w1 := set_conn (Some fresh_db) w in
  let w2 := post (seed sample_cli w) in
  let u := ("vendor1", "vendor1@example.com", "password123", "vendor") in
  count is_profile_insert (trace (seed_user u w1)) = 1 /\
  count (is_profile_insert_for "vendor" 1) (trace (seed_user u w1)) = 1 /\
  (exists d', conn (post (seed_user u w1)) = Some d' /\
              profile_users d' "vendor" = [1] /\
              profile_users d' "customer" = []) /\
  length (users (durable w2)) = 4 /\
  profile_rows (durable w2) = 4 /\
  durable (post (seed sample_cli w2)) = durable w2 /\
  never is_profile_insert (trace (seed sample_cli w2)) = true.
Proof.
  cbv zeta.
  assert (Hu : In ("vendor1", "vendor1@example.com", "password123", "vendor")
                  sample_users) by (vm_compute; tauto).
  destruct (seed_profile_iff_id_and_idempotent
              sample_cli
              ("vendor1", "vendor1@example.com", "password123", "vendor")
              (set_conn (Some fresh_db) (world_of fresh_db no_files []))
              fresh_db
              (world_of fresh_db no_files [])
              (post (seed sample_cli (world_of fresh_db no_files []))))
    as (H1 & H2 & H3 & H4).
  split; [apply H1; [exact Hu | reflexivity | reflexivity]|].
  split; [apply (H2 Hu eq_refl eq_refl 1); reflexivity|].
  split.
  { destruct (H3 Hu eq_refl eq_refl) as (d' & Hc & _ & _ & Hown).
    exists d'. split; [exact Hc|].
    split; [apply (Hown "vendor") | apply (Hown "customer")]. }
  split; [vm_compute; reflexivity|]. split; [vm_compute; reflexivity|].
  apply H4; [vm_compute; reflexivity | reflexivity].
Defined.

(** ** reset *)

Lemma tables_clear_rows (n : string) (d : Db) :
  tables (Sql.clear_rows n d) = tables d /\
  enums (Sql.clear_rows n d) = enums d.
Proof.
  unfold Sql.clear_rows.
  repeat match goal with
         | |- context [if ?b then _ else _] => destruct b
         end; split; reflexivity.
Qed.


Lemma enums_drop_table (n : string) (d : Db) :
  enums (Sql.drop_table n d) = enums d.
Proof. unfold Sql.drop_table. rewrite (proj2 (tables_clear_rows _ _)). reflexivity. Qed.


Lemma enums_drop_tables (names : list string) (d : Db) :
  enums (fold_left (fun d n => Sql.drop_table n d) names d) = enums d.
Proof.
  revert d. induction names as [|n names IH]; intros d; simpl.
  - reflexivity.
  - rewrite IH. apply enums_drop_table.
Qed.








Section ExecuteLoop.

Variable A : Type.
Variable stmt : A -> Stmt unit.
Variable line : A -> Msg.
Variable step : A -> Db -> Db.
Hypothesis stmt_step :
  forall rb x d, apply_stmt rb (stmt x) d = Some (step x d, tt).


End ExecuteLoop.



(** With no table in the public schema reset returns from its guard: no
    DROP TYPE is sent and nothing is committed. *)
Lemma reset_without_tables (self : DatabaseCLI) (w : World) :
  server w (db_url self) = true ->
  hd false (faults w) = false ->
  tables (durable w) = [] ->
  res (reset self w) = Val true /\
  trace (reset self w) =
    [EvPrint MsgResetHeader; EvConnect (db_url self) true;
     EvPrint MsgConnected; EvExecute SelectTables true; EvPrint MsgNoTables;
     EvDisconnect; EvClose; EvPrint MsgClosed] /\
  durable (post (reset self w)) = durable w.
Proof.
  intros Hs Hf Ht. unfold reset.
  rewrite run_print_then, (run_session_up _ _ _ Hs), run_finally_disconnect.
  cbn [after res post trace]. rewrite closed_durable.
  set (w1 := set_conn (Some (durable w)) w).
  unfold try_except.
  rewrite (bind_val _ _ _ _ _ _ _ _
             (run_execute_ok _ SelectTables w1 (durable w) (durable w) _
                             eq_refl Hf eq_refl)).
  rewrite Ht. cbn. auto.
Qed.

(** C2, at the input on which the code falls short of it: the public schema
    holds no table and one enum type.  reset returns True from its no-tables
    guard, having sent no DROP TYPE and no commit, and the enum type is still
    there. *)
Theorem reset_without_tables_keeps_enum_types :
  let w := world_of enum_only_db no_files [] in
  let o := reset sample_cli w in
  tables (durable w) = [] /\
  enums (durable w) = ["user_type"] /\
  res o = Val true /\
  trace o =
    [EvPrint MsgResetHeader; EvConnect sample_url true;
     EvPrint MsgConnected; EvExecute SelectTables true; EvPrint MsgNoTables;
     EvDisconnect; EvClose; EvPrint MsgClosed] /\
  enums (durable (post o)) = ["user_type"].
Proof. vm_compute. repeat split. Qed.

Example reset_with_tables :
  let w := world_of fresh_db no_files [] in
  let o := reset sample_cli w in
  res o = Val true /\
  tables (durable (post o)) = [] /\
  enums (durable (post o)) = [].
Proof. vm_compute. repeat split. Qed.

(** ** Sample runs *)

Example migrate_sample :
  let o := migrate sample_cli "backend/sql/schema.sql"
                   (world_of menu_db (project_files "CREATE") []) in
  res o = Val true /\
  durable (post o) = fresh_db /\
  count is_commit_ok (trace o) = 2 /\
  count is_disconnect (trace o) = 1.
Proof. vm_compute. repeat split. Qed.

Example migrate_schema_missing :
  let o := migrate sample_cli "backend/sql/schema.sql"
                   (world_of menu_db no_files []) in
  res o = Val false /\
  trace o = [EvPrint MsgMigrateHeader; EvPrint (MsgSchemaNotFound schema_file)].
Proof. vm_compute. repeat split. Qed.

Example seed_sample :
  let o := seed sample_cli (world_of fresh_db no_files []) in
  res o = Val true /\
  map username (users (durable (post o))) =
    ["customer1"; "vendor1"; "driver1"; "admin1"] /\
  map customer_user (customers (durable (post o))) = [1] /\
  map vendor_user (vendors (durable (post o))) = [2] /\
  map driver_user (drivers (durable (post o))) = [3] /\
  map admin_user (admins (durable (post o))) = [4].
Proof. vm_compute. repeat split. Qed.

Example seed_interrupted :
  let w := set_faults [false; false; false; true]
                      (world_of fresh_db no_files []) in
  let o := seed sample_cli w in
  res o = Val false /\
  durable (post o) = fresh_db /\
  count is_rollback (trace o) = 1 /\
  count is_disconnect (trace o) = 1.
Proof. vm_compute. repeat split. Qed.

Example cleanup_declined :
  let w := world_of menu_db no_files ["no"] in
  let o := cleanup_orphaned_menus sample_cli false w in
  res o = Val false /\
  durable (post o) = menu_db /\
  count is_disconnect (trace o) = 1.
Proof. vm_compute. repeat split. Qed.

Example main_exit_codes :
  res (main (args_of Seed) (world_of fresh_db no_files [])) = Val 0 /\
  res (main (args_of Seed) (offline (world_of fresh_db no_files []))) = Val 1 /\
  res (main (args_execute CleanupOrphanedMenus)
            (world_of menu_db no_files ["no"])) = Val 1.
Proof. vm_compute. repeat split. Qed.
(** * Further properties *)

(** ** Sessions are closed, and what can leave a command *)

Lemma connect_run (self : DatabaseCLI) (w : World) :
  connect self w =
  if server w (db_url self)
  then mkOut (Val true) (set_conn (Some (durable w)) w)
             [EvConnect (db_url self) true; EvPrint MsgConnected]
  else mkOut (Val false) w
             [EvConnect (db_url self) false;
              EvPrint (MsgConnectFailed OperationalError)].
Proof.
  unfold connect, try_except, bind, psycopg2_connect.
  destruct (server w (db_url self)); reflexivity.
Qed.



























(** ** __init__ and main *)

Lemma init_run (arg : option string) (w : World) :
  init arg w =
  match resolved_url arg (environ w) with
  | Some u => mkOut (Val {| db_url := u |}) (unbound w) []
  | None => mkOut (Raise missing_url) w []
  end.
Proof.
  unfold init, resolved_url, bind, os_getenv.
  destruct (Py.or_else arg (environ w)) as [u|]; [|reflexivity].
  destruct (Py.truthy u); reflexivity.
Qed.

(** --db-url wins over DATABASE_URL; an empty --db-url counts as not given and
    an empty DATABASE_URL as not set; with neither, __init__ raises and the
    object is not built. *)
Theorem init_url_precedence (arg : option string) (w : World) :
  (forall u, arg = Some u -> u <> "" ->
             res (init arg w) = Val {| db_url := u |}) /\
  (forall e, Py.truthy_opt arg = false -> environ w = Some e -> e <> "" ->
             res (init arg w) = Val {| db_url := e |}) /\
  (Py.truthy_opt arg = false -> Py.truthy_opt (environ w) = false ->
   res (init arg w) = Raise missing_url).
Proof.
  rewrite init_run. unfold resolved_url, Py.or_else.
  repeat split.
  - intros u -> Hu. apply String.eqb_neq in Hu.
    unfold Py.truthy_opt, Py.truthy. rewrite Hu. cbn. rewrite Hu. reflexivity.
  - intros e Ha -> He. apply String.eqb_neq in He. rewrite Ha.
    unfold Py.truthy. rewrite He. reflexivity.
  - intros Ha He. rewrite Ha. destruct (environ w) as [e|]; [|reflexivity].
    cbn in He. rewrite He. reflexivity.
Qed.

Lemma init_url_precedence_witness :
  let w := world_of fresh_db no_files [] in
  res (init (Some "postgresql://other/db") w)
  = Val {| db_url := "postgresql://other/db" |} /\
  res (init (Some "") w) = Val {| db_url := sample_url |} /\
  res (init (Some "") (unset_env w)) = Raise missing_url.
Proof.
  cbv zeta. split; [|split].
  - apply (proj1 (init_url_precedence (Some "postgresql://other/db")
                    (world_of fresh_db no_files [])) _ eq_refl).
    discriminate.
  - apply (proj1 (proj2 (init_url_precedence (Some "")
                           (world_of fresh_db no_files [])))
             sample_url eq_refl eq_refl).
    discriminate.
  - apply (proj2 (proj2 (init_url_precedence (Some "")
                           (unset_env (world_of fresh_db no_files []))))
             eq_refl eq_refl).
Defined.

Lemma main_run (args : Args) (w : World) :
  main args w =
  match resolved_url (arg_db_url args) (environ w) with
  | Some u =>
      match dispatch {| db_url := u |} args (unbound w) with
      | mkOut (Val b) w1 t1 => mkOut (Val (if b then 0 else 1)) w1 t1
      | mkOut (Raise e) w1 t1 => mkOut (Val 1) w1 (t1 ++ [EvPrint (MsgError e)])
      end
  | None => mkOut (Val 1) w [EvPrint (MsgError missing_url)]
  end.
Proof.
  unfold main, try_except. unfold bind at 1. rewrite init_run.
  destruct (resolved_url (arg_db_url args) (environ w)) as [u|];
    [|reflexivity].
  unfold bind.
  destruct (dispatch {| db_url := u |} args (unbound w))
    as [[b|e] w1 t1]; cbn; rewrite ?app_nil_r; reflexivity.
Qed.

(** The exit status of main is 0, 1 or 2.  It is 2 exactly when argparse
    turned the command line down, which happens before the try block.  It is
    0 exactly when argparse printed the help, or when the command line was
    accepted, a URL was found and the command returned True.  Everything
    else ends in 1: the ValueError of __init__, a command that returns
    False, and a command that raises (the handler of main catches it). *)
Theorem main_exit_status (p : Parsed) (w : World) :
  let o := main_from p w in
  (res o = Val 0 \/ res o = Val 1 \/ res o = Val 2) /\
  (res o = Val 2 <-> p = UsageError) /\
  (res o = Val 0 <->
   p = HelpShown \/
   exists args u,
     p = Accepted args /\
     resolved_url (arg_db_url args) (environ w) = Some u /\
     res (dispatch {| db_url := u |} args (unbound w)) = Val true).
Proof.
  cbv zeta. destruct p as [args| |]; cbn [main_from].
  - rewrite main_run.
    destruct (resolved_url (arg_db_url args) (environ w)) as [u|] eqn:Hu.
    + destruct (dispatch {| db_url := u |} args (unbound w))
        as [[[|]|e] w1 t1] eqn:Hd; cbn [res].
      * split; [auto|]. split; [split; intros H; discriminate H|].
        split; [intros _; right; exists args, u; rewrite Hd; auto
               | reflexivity].
      * split; [auto|]. split; [split; intros H; discriminate H|].
        split; [intros H; discriminate H|].
        intros [H|(a' & u' & Ha & Hu' & Hr)]; [discriminate H|].
        injection Ha as <-. rewrite Hu in Hu'. injection Hu' as <-.
        rewrite Hd in Hr. discriminate Hr.
      * split; [auto|]. split; [split; intros H; discriminate H|].
        split; [intros H; discriminate H|].
        intros [H|(a' & u' & Ha & Hu' & Hr)]; [discriminate H|].
        injection Ha as <-. rewrite Hu in Hu'. injection Hu' as <-.
        rewrite Hd in Hr. discriminate Hr.
    + cbn [res]. split; [auto|]. split; [split; intros H; discriminate H|].
      split; [intros H; discriminate H|].
      intros [H|(a' & u' & Ha & Hu' & _)]; [discriminate H|].
      injection Ha as <-. rewrite Hu in Hu'. discriminate Hu'.
  - cbn. split; [auto|]. split; [split; reflexivity|].
    split; [intros H; discriminate H|].
    intros [H|(a' & u' & Ha & _)]; discriminate.
  - cbn. split; [auto|]. split; [split; intros H; discriminate H|].
    split; [auto | reflexivity].
Qed.

Lemma main_exit_status_witness :
  res (main_from (Accepted (args_of Status)) (world_of fresh_db no_files []))
  = Val 0 /\
  res (main_from (Accepted (args_of Migrate))
                 (world_of fresh_db (project_files terminate_backend) []))
  = Val 1.
Proof.
  split.
  - apply (proj2 (proj2 (main_exit_status
                           (Accepted (args_of Status))
                           (world_of fresh_db no_files [])))).
    right. exists (args_of Status), sample_url. repeat split.
  - destruct (main_exit_status
                (Accepted (args_of Migrate))
                (world_of fresh_db (project_files terminate_backend) []))
      as ([H|[H|H]] & H2 & H0).
    + apply H0 in H. destruct H as [H|(a & u & Ha & Hu & Hr)];
        [discriminate H|].
      injection Ha as <-. vm_compute in Hu. injection Hu as <-.
      vm_compute in Hr. discriminate Hr.
    + exact H.
    + apply H2 in H. discriminate H.
Defined.

(** cleanup-orphaned-menus without --execute is a dry run: main hands
    dry_run = True to the command, so nothing is written or committed, the
    operator is not asked, and the committed database stays as it was. *)
Theorem main_cleanup_defaults_to_dry_run (args : Args) (w : World) :
  command args = CleanupOrphanedMenus ->
  arg_execute args = false ->
  let o := main args w in
  never is_write (trace o) = true /\
  never is_commit (trace o) = true /\
  never is_input (trace o) = true /\
  durable (post o) = durable w.
Proof.
  intros Hc He. cbv zeta. rewrite main_run.
  destruct (resolved_url (arg_db_url args) (environ w)) as [u|];
    [|repeat split].
  set (self := {| db_url := u |}). set (w0 := unbound w).
  assert (Hd : dispatch self args = cleanup_orphaned_menus self true)
    by (unfold dispatch; rewrite Hc, He; reflexivity).
  rewrite Hd.
  assert (Hw : avoids is_write (cleanup_orphaned_menus self true))
    by (unfold cleanup_orphaned_menus, connect, disconnect; avoid).
  assert (Hk : avoids is_commit (cleanup_orphaned_menus self true))
    by (unfold cleanup_orphaned_menus, connect, disconnect; avoid).
  assert (Hi : avoids is_input (cleanup_orphaned_menus self true))
    by (unfold cleanup_orphaned_menus, connect, disconnect; avoid).
  assert (Hh : durable (post (cleanup_orphaned_menus self true w0)) = durable w).
  { generalize (honest_dispatch self (args_of CleanupOrphanedMenus) w0).
    intros H. apply H, never_commit_ok, Hk. }
  specialize (Hw w0). specialize (Hk w0). specialize (Hi w0).
  destruct (cleanup_orphaned_menus self true w0) as [[b|e] w1 t1];
    cbn [res post trace] in *; rewrite ?never_app, ?Hw, ?Hk, ?Hi;
    repeat split; assumption.
Qed.

Lemma main_cleanup_dry_run_witness :
  let o := main (args_of CleanupOrphanedMenus)
                (world_of menu_db no_files ["yes"]) in
  never is_write (trace o) = true /\
  never is_commit (trace o) = true /\
  never is_input (trace o) = true /\
  durable (post o) = menu_db.
Proof.
  cbv zeta.
  apply (main_cleanup_defaults_to_dry_run
           (args_of CleanupOrphanedMenus)
           (world_of menu_db no_files ["yes"]) eq_refl eq_refl).
Defined.

(** ** migrate: the remaining paths *)

(** With no schema file at the resolved path migrate gives up at once: it
    returns False without connecting, so a drop script that may sit in the
    directory is not run either, and the world is as before. *)
Theorem migrate_without_schema_file
        (self : DatabaseCLI) (schema_arg : string) (w : World) :
  fs w (resolve_schema (script_file w) schema_arg) = Missing ->
  migrate self schema_arg w =
  mkOut (Val false) w
        [EvPrint MsgMigrateHeader;
         EvPrint (MsgSchemaNotFound
                    (resolve_schema (script_file w) schema_arg))].
Proof.
  intros Hf. unfold migrate. rewrite run_print_then.
  erewrite bind_silent by reflexivity.
  erewrite bind_silent by reflexivity.
  rewrite Hf. reflexivity.
Qed.

Lemma migrate_without_schema_file_witness :
  migrate sample_cli "backend/sql/schema.sql"
          (world_of menu_db no_files []) =
  mkOut (Val false) (world_of menu_db no_files [])
        [EvPrint MsgMigrateHeader; EvPrint (MsgSchemaNotFound schema_file)].
Proof.
  apply (migrate_without_schema_file
           sample_cli "backend/sql/schema.sql" (world_of menu_db no_files [])).
  reflexivity.
Defined.

(** The run of migrate once the schema file is there and connect succeeded,
    in terms of its try block. *)
Lemma migrate_connected_run
      (self : DatabaseCLI) (schema_arg : string) (w : World) :
  let sp := resolve_schema (script_file w) schema_arg in
  let b := migrate_steps self sp (set_conn (Some (durable w)) w) in
  server w (db_url self) = true ->
  fs w sp <> Missing ->
  res (migrate self schema_arg w) = res b /\
  durable (post (migrate self schema_arg w)) = durable (post b) /\
  trace (migrate self schema_arg w) =
    [EvPrint MsgMigrateHeader; EvConnect (db_url self) true;
     EvPrint MsgConnected] ++ trace b ++
    EvDisconnect :: close_log (post b) ++ [EvPrint MsgClosed].
Proof.
  cbv zeta. intros Hs Hx. unfold migrate. rewrite run_print_then.
  erewrite bind_silent by reflexivity.
  erewrite bind_silent by reflexivity.
  set (sp := resolve_schema (script_file w) schema_arg) in *.
  assert (Hfound : negb (match fs w sp with Missing => false | _ => true end)
                   = false)
    by (destruct (fs w sp); [congruence | | ]; reflexivity).
  rewrite Hfound.
  change (bind (os_path_exists (drop_all_of sp)) _) with (migrate_steps self sp).
  rewrite (run_session_up _ _ _ Hs), run_finally_disconnect.
  cbn [after res post trace app]. rewrite closed_durable. auto.
Qed.

Lemma close_log_count (f : Event -> bool) (w : World) :
  f EvClose = false -> count f (close_log w) = 0.
Proof.
  intros H1. unfold close_log, count.
  destruct (conn w); [|destruct (stale w)]; cbn; rewrite ?H1; reflexivity.
Qed.

Lemma close_log_never (f : Event -> bool) (w : World) :
  f EvClose = false -> never f (close_log w) = true.
Proof.
  intros H1. unfold close_log, never.
  destruct (conn w); [|destruct (stale w)]; cbn; rewrite ?H1; reflexivity.
Qed.

Lemma migrate_schema_trace (self : DatabaseCLI) (sp : string) (w : World) (b : bool) :
  res (execute_sql_file self sp w) = Val b ->
  trace (migrate_schema self sp w) =
  EvPrint MsgStep2 :: trace (execute_sql_file self sp w) ++
  [EvPrint (if b then MsgMigrateOk else MsgMigrateFailed)].
Proof.
  intros H. unfold migrate_schema. rewrite run_print_then.
  destruct (execute_sql_file self sp w) as [r w1 t1] eqn:He. simpl in H. subst r.
  unfold bind. rewrite He. destruct b; reflexivity.
Qed.

(** Without a drop script beside the schema file migrate skips the drop step
    and applies the schema file alone: when the engine takes the batch and
    the commit, migrate returns True after that one commit and the committed
    database is what the schema file made of the one it found. *)
Theorem migrate_without_drop_script
        (self : DatabaseCLI) (schema_arg : string) (w : World)
        (ssql : string) (d' : Db) :
  let sp := resolve_schema (script_file w) schema_arg in
  server w (db_url self) = true ->
  fs w sp = Text ssql ->
  fs w (drop_all_of sp) = Missing ->
  run_batch w ssql (durable w) = Some d' ->
  nth 0 (faults w) false = false ->
  nth 1 (faults w) false = false ->
  let o := migrate self schema_arg w in
  res o = Val true /\
  durable (post o) = d' /\
  count is_commit (trace o) = 1 /\
  count is_open_event (trace o) = 1 /\
  In (EvPrint (MsgDropSkipped (drop_all_of sp))) (trace o).
Proof.
  cbv zeta. intros Hs Hf Hd Hb F0 F1.
  rewrite nth_tl, nth_hd in F1. rewrite nth_hd in F0.
  set (sp := resolve_schema (script_file w) schema_arg) in *.
  assert (Hx : fs w sp <> Missing) by congruence.
  destruct (migrate_connected_run self schema_arg w Hs Hx) as (Hr & Hp & Ht).
  fold sp in Hr, Hp, Ht. rewrite Hr, Hp, Ht. clear Hr Hp Ht.
  set (w1 := set_conn (Some (durable w)) w).
  unfold migrate_steps. erewrite bind_silent by reflexivity.
  cbn [fs w1 set_conn]. rewrite Hd. rewrite run_print_then.
  cbn [after res post trace app].
  pose proof (run_file_ok self sp w1 (durable w) d' ssql eq_refl Hf F0 Hb F1)
    as Hrun.
  assert (Hres : res (execute_sql_file self sp w1) = Val true)
    by (rewrite Hrun; reflexivity).
  destruct (migrate_schema_run self sp w1 true Hres) as (Hr & Hp).
  rewrite Hr, Hp, (migrate_schema_trace self sp w1 true Hres), Hrun.
  cbn [res post trace durable set_durable app].
  split; [reflexivity|]. split; [reflexivity|].
  repeat (rewrite count_cons || rewrite count_app).
  rewrite !close_log_count by reflexivity.
  split; [reflexivity|]. split; [reflexivity|].
  right. right. right. left. reflexivity.
Qed.

Lemma migrate_without_drop_witness :
  let w := world_of menu_db
             (fun p => if p =? schema_file then Text "CREATE" else Missing) [] in
  let o := migrate sample_cli "backend/sql/schema.sql" w in
  res o = Val true /\
  durable (post o) = fresh_db /\
  count is_commit (trace o) = 1 /\
  count is_open_event (trace o) = 1 /\
  In (EvPrint (MsgDropSkipped drop_file)) (trace o).
Proof.
  cbv zeta.
  apply (migrate_without_drop_script
           sample_cli "backend/sql/schema.sql"
           (world_of menu_db
              (fun p => if p =? schema_file then Text "CREATE" else Missing) [])
           "CREATE" fresh_db); reflexivity.
Defined.


(** When the drop script goes through and the schema file after it, migrate
    returns True with two commits, and the committed database is what the
    schema file made of the database the drop script left (not of the one
    migrate found). *)
Theorem migrate_applies_schema_after_drop
        (self : DatabaseCLI) (schema_arg : string) (w : World)
        (dsql ssql : string) (d1 d2 : Db) :
  let sp := resolve_schema (script_file w) schema_arg in
  server w (db_url self) = true ->
  fs w sp = Text ssql ->
  fs w (drop_all_of sp) = Text dsql ->
  run_batch w dsql (durable w) = Some d1 ->
  run_batch w ssql d1 = Some d2 ->
  (forall n, n < 4 -> nth n (faults w) false = false) ->
  let o := migrate self schema_arg w in
  res o = Val true /\
  durable (post o) = d2 /\
  count is_commit_ok (trace o) = 2 /\
  never is_rollback (trace o) = true.
Proof.
  cbv zeta. intros Hs Hf Hd Hb1 Hb2 HF.
  pose proof (HF 0 ltac:(lia)) as F0. pose proof (HF 1 ltac:(lia)) as F1.
  pose proof (HF 2 ltac:(lia)) as F2. pose proof (HF 3 ltac:(lia)) as F3.
  rewrite nth_hd in F0. rewrite nth_tl, nth_hd in F1.
  rewrite !nth_tl, nth_hd in F2. rewrite !nth_tl, nth_hd in F3.
  set (sp := resolve_schema (script_file w) schema_arg) in *.
  assert (Hx : fs w sp <> Missing) by congruence.
  destruct (migrate_connected_run self schema_arg w Hs Hx) as (Hr & Hp & Ht).
  fold sp in Hr, Hp, Ht. rewrite Hr, Hp, Ht. clear Hr Hp Ht.
  set (w1 := set_conn (Some (durable w)) w).
  unfold migrate_steps. erewrite bind_silent by reflexivity.
  cbn [fs w1 set_conn]. rewrite Hd. rewrite run_print_then.
  rewrite (bind_val _ _ _ _ _ _ _ _
             (run_file_ok self (drop_all_of sp) w1 (durable w) d1 dsql
                          eq_refl Hd F0 Hb1 F1)).
  cbn [after res post trace negb app].
  set (w2 := set_durable d1 _).
  pose proof (run_file_ok self sp w2 d1 d2 ssql eq_refl Hf F2 Hb2 F3) as Hrun.
  assert (Hres : res (execute_sql_file self sp w2) = Val true)
    by (rewrite Hrun; reflexivity).
  destruct (migrate_schema_run self sp w2 true Hres) as (Hr & Hp).
  rewrite Hr, Hp, (migrate_schema_trace self sp w2 true Hres), Hrun.
  cbn [res post trace durable set_durable app].
  split; [reflexivity|]. split; [reflexivity|].
  split.
  - repeat (rewrite count_cons || rewrite count_app).
    rewrite !close_log_count by reflexivity. reflexivity.
  - repeat (rewrite never_cons || rewrite never_app).
    rewrite !close_log_never by reflexivity. reflexivity.
Qed.

Lemma migrate_applies_schema_witness :
  let o := migrate sample_cli "backend/sql/schema.sql"
                   (world_of menu_db (project_files "CREATE") []) in
  res o = Val true /\
  durable (post o) = fresh_db /\
  count is_commit_ok (trace o) = 2 /\
  never is_rollback (trace o) = true.
Proof.
  cbv zeta.
  apply (migrate_applies_schema_after_drop
           sample_cli "backend/sql/schema.sql"
           (world_of menu_db (project_files "CREATE") [])
           "DROP" "CREATE" empty_db fresh_db); try reflexivity.
  intros [|[|[|[|n]]]] Hn; try reflexivity; destruct n; reflexivity.
Defined.






(** ** The drop script sits beside the schema file *)

Lemma chars_app (s1 s2 : string) :
  list_ascii_of_string (s1 ++ s2)%string =
  list_ascii_of_string s1 ++ list_ascii_of_string s2.
Proof. induction s1 as [|c s1 IH]; simpl; [reflexivity | rewrite IH; reflexivity]. Qed.

Lemma ends_with_slash_chars (l : list ascii) :
  Py.ends_with_slash (string_of_list_ascii l) =
  match rev l with
  | c :: _ => Py.is_slash c
  | [] => false
  end.
Proof.
  induction l as [|c l IH]; [reflexivity|].
  destruct l as [|c' l']; [reflexivity|].
  change (Py.ends_with_slash (string_of_list_ascii (c :: c' :: l')))
    with (Py.ends_with_slash (string_of_list_ascii (c' :: l'))).
  rewrite IH. simpl rev.
  destruct (rev l' ++ [c']) as [|x r] eqn:E.
  - destruct (rev l'); discriminate E.
  - reflexivity.
Qed.

Lemma drop_while_no_slash (l r : list ascii) :
  forallb (fun c => negb (Py.is_slash c)) l = true ->
  Py.drop_while_not_slash (l ++ r) = Py.drop_while_not_slash r.
Proof.
  induction l as [|c l IH]; simpl; [reflexivity|].
  intros H. apply andb_true_iff in H. destruct H as [Hc Hl].
  destruct (Py.is_slash c); [discriminate Hc|]. auto.
Qed.

Lemma drop_slashes_head (l : list ascii) :
  forallb Py.is_slash l = false ->
  exists c r, Py.drop_slashes l = c :: r /\ Py.is_slash c = false.
Proof.
  induction l as [|c l IH]; simpl; [discriminate|].
  destruct (Py.is_slash c) eqn:Hc; simpl; [exact IH|]. eauto.
Qed.

Lemma forallb_rev A (f : A -> bool) (l : list A) :
  forallb f (rev l) = forallb f l.
Proof.
  induction l as [|x l IH]; simpl; [reflexivity|].
  rewrite forallb_app, IH. simpl. rewrite andb_true_r. apply andb_comm.
Qed.

(** What dirname hands back: slashes only (the empty string included), or a
    text that is not all slashes and does not end in one. *)
Lemma dirname_shape (p : string) :
  exists dl, Py.dirname p = string_of_list_ascii dl /\
             (forallb Py.is_slash dl = true \/
              exists c r, rev dl = c :: r /\ Py.is_slash c = false).
Proof.
  unfold Py.dirname.
  set (h := Py.drop_while_not_slash (rev (list_ascii_of_string p))).
  destruct (forallb Py.is_slash h) eqn:Hall.
  - exists (rev h). split; [reflexivity|]. left. rewrite forallb_rev. exact Hall.
  - exists (rev (Py.drop_slashes h)). split; [reflexivity|]. right.
    rewrite rev_involutive. apply drop_slashes_head. exact Hall.
Qed.

Lemma dirname_chars (l : list ascii) :
  Py.dirname (string_of_list_ascii l) =
  let h := Py.drop_while_not_slash (rev l) in
  if forallb Py.is_slash h
  then string_of_list_ascii (rev h)
  else string_of_list_ascii (rev (Py.drop_slashes h)).
Proof.
  unfold Py.dirname. rewrite list_ascii_of_string_of_list_ascii. reflexivity.
Qed.

Lemma string_of_app (a b : list ascii) :
  string_of_list_ascii (a ++ b) =
  (string_of_list_ascii a ++ string_of_list_ascii b)%string.
Proof. induction a as [|c a IH]; simpl; [reflexivity | rewrite IH; reflexivity]. Qed.

(** join with a relative name, on the characters. *)
Lemma join_chars (dl name : list ascii) :
  match name with c :: _ => Py.is_slash c | [] => false end = false ->
  Py.join (string_of_list_ascii dl) (string_of_list_ascii name) =
  string_of_list_ascii
    (match rev dl with
     | [] => name
     | c :: _ => if Py.is_slash c then dl ++ name else dl ++ Py.slash :: name
     end).
Proof.
  intros Hrel. unfold Py.join.
  assert (Habs : Py.isabs (string_of_list_ascii name) = false)
    by (destruct name; [reflexivity | exact Hrel]).
  rewrite Habs, ends_with_slash_chars.
  destruct dl as [|x dl']; [reflexivity|].
  cbn [string_of_list_ascii String.eqb orb].
  destruct (rev (x :: dl')) as [|c t] eqn:E.
  - apply (f_equal (@rev ascii)) in E. rewrite rev_involutive in E.
    discriminate E.
  - destruct (Py.is_slash c).
    + rewrite string_of_app. reflexivity.
    + rewrite string_of_app. reflexivity.
Qed.

Lemma dirname_join_name (dl name : list ascii) :
  forallb (fun c => negb (Py.is_slash c)) name = true ->
  name <> [] ->
  (forallb Py.is_slash dl = true \/
   exists c r, rev dl = c :: r /\ Py.is_slash c = false) ->
  Py.dirname (Py.join (string_of_list_ascii dl) (string_of_list_ascii name)) =
  string_of_list_ascii dl.
Proof.
  intros Hname Hne Hshape.
  assert (Hrel : match name with c :: _ => Py.is_slash c | [] => false end
                 = false).
  { destruct name as [|c n]; [reflexivity|]. cbn in Hname.
    apply andb_true_iff in Hname. destruct Hname as [Hc _].
    destruct (Py.is_slash c); [discriminate Hc | reflexivity]. }
  assert (Hrn : forallb (fun c => negb (Py.is_slash c)) (rev name) = true)
    by (rewrite forallb_rev; exact Hname).
  rewrite (join_chars dl name Hrel), dirname_chars. cbv zeta.
  destruct (rev dl) as [|c t] eqn:Hrev.
  - (* no directory part *)
    assert (dl = []) by (destruct dl; [reflexivity|];
                         apply (f_equal (@rev ascii)) in Hrev;
                         rewrite rev_involutive in Hrev; discriminate Hrev).
    subst dl. rewrite <- (app_nil_r (rev name)).
    rewrite (drop_while_no_slash _ _ Hrn). reflexivity.
  - destruct (Py.is_slash c) eqn:Hc.
    + (* the directory ends in a slash: it is slashes only *)
      destruct Hshape as [Hall | (c' & r' & Hr' & Hc')];
        [|inversion Hr'; subst; congruence].
      rewrite rev_app_distr, (drop_while_no_slash _ _ Hrn), Hrev.
      cbn [Py.drop_while_not_slash]. rewrite Hc.
      rewrite <- Hrev, forallb_rev, Hall, rev_involutive. reflexivity.
    + rewrite rev_app_distr. cbn [rev]. rewrite <- app_assoc.
      rewrite (drop_while_no_slash _ _ Hrn). cbn [app Py.drop_while_not_slash].
      change (Py.is_slash Py.slash) with true. cbv iota.
      cbn [forallb]. change (Py.is_slash Py.slash) with true.
      cbn [andb Py.drop_slashes].
      assert (Hnot : forallb Py.is_slash (rev dl) = false)
        by (rewrite Hrev; cbn; rewrite Hc; reflexivity).
      rewrite Hnot, Hrev. cbn [Py.drop_slashes]. rewrite Hc.
      change (Py.is_slash Py.slash) with true. cbv iota.
      rewrite <- Hrev, rev_involutive. reflexivity.
Qed.

(** The drop script is looked for in the directory of the schema file:
    whatever the schema path, the directory of the path migrate builds for
    drop_all.sql is the directory of the schema path. *)
Theorem drop_all_is_sibling (schema_path : string) :
  Py.dirname (drop_all_of schema_path) = Py.dirname schema_path.
Proof.
  unfold drop_all_of.
  destruct (dirname_shape schema_path) as (dl & -> & Hshape).
  change "drop_all.sql"
    with (string_of_list_ascii (list_ascii_of_string "drop_all.sql")).
  apply dirname_join_name; [reflexivity | discriminate | exact Hshape].
Qed.

(** ** status: what it reports *)

Lemma status_loop_run (rows : list (string * string)) :
  forall (w : World) (d : Db),
  conn w = Some d -> faults w = [] ->
  exists w',
    for_each rows (fun row =>
      count <- cursor_execute (SelectCount (fst row)) ;;
      print (MsgTableLine (fst row) count (snd row))) w =
    mkOut (Val tt) w' (flat_map (table_line_events d) rows) /\
    conn w' = Some d /\ faults w' = [] /\ durable w' = durable w.
Proof.
  induction rows as [|row rows IH]; intros w d Hc Hf.
  - exists w. cbn. auto.
  - cbn [for_each flat_map].
    assert (H0 : hd false (faults w) = false) by (rewrite Hf; reflexivity).
    pose proof (run_execute_ok _ (SelectCount (fst row)) w d d _ Hc H0 eq_refl)
      as Hx.
    set (w1 := set_conn (Some d) (set_faults (tl (faults w)) w)) in Hx.
    assert (Hc1 : conn w1 = Some d) by reflexivity.
    assert (Hf1 : faults w1 = []) by (unfold w1; cbn; rewrite Hf; reflexivity).
    destruct (IH w1 d Hc1 Hf1) as (w' & Hrun & Hc' & Hf' & Hd').
    exists w'. split; [|auto].
    unfold bind at 1. unfold bind at 1. rewrite Hx. cbn [print emit].
    rewrite Hrun. reflexivity.
Qed.

Lemma find_own_table (l : list TableInfo) (t : TableInfo) :
  NoDup (map tablename l) -> In t l ->
  find (fun t' => tablename t' =? tablename t) l = Some t.
Proof.
  induction l as [|x l IH]; intros Hnd Hin; [destruct Hin|].
  cbn [map] in Hnd. inversion Hnd as [|? ? Hx Hl]. subst.
  cbn [find]. destruct Hin as [->|Hin].
  - rewrite String.eqb_refl. reflexivity.
  - destruct (String.eqb_spec (tablename x) (tablename t)) as [E|E].
    + exfalso. apply Hx. rewrite E. apply in_map. exact Hin.
    + apply IH; assumption.
Qed.

Lemma relation_size_own (d : Db) (t : TableInfo) :
  NoDup (map tablename (tables d)) ->
  In t (tables d) ->
  reads_as_itself (tablename t) = true ->
  Sql.relation_size d (tablename t) = Some (size_pretty t).
Proof.
  intros Hnd Hin Hr. unfold reads_as_itself in Hr.
  apply andb_true_iff in Hr. destruct Hr as [Hu Hl].
  apply String.eqb_eq in Hl.
  unfold Sql.relation_size, Sql.resolve. rewrite Hu, Hl.
  rewrite (find_own_table _ _ Hnd Hin). reflexivity.
Qed.

Lemma sizes_of_own (d : Db) (l : list TableInfo) :
  (forall t, In t l ->
             Sql.relation_size d (tablename t) = Some (size_pretty t)) ->
  Sql.sizes_of d l = Some (map (fun t => (tablename t, size_pretty t)) l).
Proof.
  induction l as [|x l IH]; intros H; [reflexivity|].
  cbn [Sql.sizes_of map]. rewrite (H x (or_introl eq_refl)).
  rewrite IH by (intros t Ht; apply H; right; exact Ht). reflexivity.
Qed.

Lemma order_by_In A (le : A -> A -> bool) (y : A) (l : list A) :
  In y (Sql.order_by le l) -> In y l.
Proof.
  unfold Sql.order_by. induction l as [|x l IH]; cbn [fold_right]; [auto|].
  intros H. apply In_insert_by in H. destruct H as [->|H]; [left; reflexivity|].
  right. apply IH, H.
Qed.

(** With table names that are unique and read as themselves, the listing
    goes through and gives each table with its own size, in name order. *)
Lemma table_sizes_own (d : Db) :
  NoDup (map tablename (tables d)) ->
  (forall t, In t (tables d) -> reads_as_itself (tablename t) = true) ->
  Sql.table_sizes d =
  Some (map (fun t => (tablename t, size_pretty t))
            (Sql.order_by (fun a b => String.leb (tablename a) (tablename b))
                          (tables d))).
Proof.
  intros Hnd Hr. unfold Sql.table_sizes. apply sizes_of_own.
  intros t Ht. apply order_by_In in Ht.
  apply relation_size_own; auto.
Qed.

Lemma In_table_rows (d : Db) (t : TableInfo) :
  In t (tables d) ->
  In (tablename t, size_pretty t)
     (map (fun t => (tablename t, size_pretty t))
          (Sql.order_by (fun a b => String.leb (tablename a) (tablename b))
                        (tables d))).
Proof.
  intros H. apply (in_map (fun t => (tablename t, size_pretty t))).
  apply In_order_by. exact H.
Qed.

Lemma status_tables_run (w : World) (d : Db) (rows : list (string * string)) :
  conn w = Some d -> faults w = [] ->
  exists w' T,
    match rows with
    | [] => print MsgNoTablesFound
    | _ :: _ =>
        print (MsgTables (length rows)) ;;
        for_each rows (fun row =>
          count <- cursor_execute (SelectCount (fst row)) ;;
          print (MsgTableLine (fst row) count (snd row)))
    end w = mkOut (Val tt) w' T /\
    conn w' = Some d /\ faults w' = [] /\
    (forall row, In row rows ->
       In (EvPrint (MsgTableLine (fst row) (Sql.count_rows d (fst row))
                                 (snd row))) T) /\
    (rows = [] -> In (EvPrint MsgNoTablesFound) T) /\
    count is_execute T = length rows.
Proof.
  intros Hc Hf. destruct rows as [|r rows].
  - exists w, [EvPrint MsgNoTablesFound]. cbn. repeat split; auto.
    all: intros row [].
  - destruct (status_loop_run (r :: rows) w d Hc Hf)
      as (w' & Hrun & Hc' & Hf' & _).
    exists w', (EvPrint (MsgTables (length (r :: rows)))
                :: flat_map (table_line_events d) (r :: rows)).
    split; [rewrite run_print_then, Hrun; reflexivity|].
    split; [exact Hc'|]. split; [exact Hf'|]. split; [|split; [discriminate|]].
    + intros row Hrow. right. apply in_flat_map. exists row.
      split; [exact Hrow|]. right. left. reflexivity.
    + rewrite count_cons. cbn [is_execute plus].
      generalize (r :: rows). intros l.
      induction l as [|x l IH]; [reflexivity|].
      cbn [flat_map table_line_events app].
      rewrite !count_cons, IH. reflexivity.
Qed.

Lemma length_insert_by A (le : A -> A -> bool) (x : A) (l : list A) :
  length (Sql.insert_by le x l) = S (length l).
Proof.
  induction l as [|y l IH]; simpl; [reflexivity|].
  destruct (le x y); simpl; [reflexivity | rewrite IH; reflexivity].
Qed.

Lemma length_order_by A (le : A -> A -> bool) (l : list A) :
  length (Sql.order_by le l) = length l.
Proof.
  unfold Sql.order_by. induction l as [|x l IH]; simpl; [reflexivity|].
  rewrite length_insert_by, IH. reflexivity.
Qed.

Lemma status_types_run (w : World) (types : list string) :
  exists T,
    match types with
    | [] => ret tt
    | _ :: _ =>
        print (MsgTypes (length types)) ;;
        for_each types (fun type_name => print (MsgTypeLine type_name))
    end w = mkOut (Val tt) w T /\
    (forall e, In e types -> In (EvPrint (MsgTypeLine e)) T) /\
    count is_execute T = 0.
Proof.
  destruct types as [|t types].
  - exists []. split; [reflexivity|]. split; [intros e []|reflexivity].
  - exists (EvPrint (MsgTypes (length (t :: types)))
            :: map (fun x => EvPrint (MsgTypeLine x)) (t :: types)).
    split; [rewrite run_print_then, run_for_each_print; reflexivity|].
    split.
    + intros e He. right. apply (in_map (fun x => EvPrint (MsgTypeLine x))).
      exact He.
    + rewrite count_cons. cbn [is_execute plus].
      generalize (t :: types). intros l.
      induction l as [|x l IH]; [reflexivity|].
      cbn [map]. rewrite count_cons, IH. reflexivity.
Qed.

(** With the server up, no engine failure, and table names that are unique
    and read as themselves where the size query puts them unquoted into a
    text (no upper-case letter, dot, white space or leading double quote),
    status returns True and has printed the server version, a line for every
    table of the public schema with its live row count and its size, and a
    line for every enum type; with no table it says so.  It sends one count
    query per table on top of its three catalogue queries. *)
Theorem status_reports_catalogue (self : DatabaseCLI) (w : World) :
  server w (db_url self) = true ->
  faults w = [] ->
  NoDup (map tablename (tables (durable w))) ->
  (forall t, In t (tables (durable w)) ->
             reads_as_itself (tablename t) = true) ->
  let o := status self w in
  let d := durable w in
  res o = Val true /\
  In (EvPrint (MsgVersion (pg_version d))) (trace o) /\
  (forall t, In t (tables d) ->
             In (EvPrint (MsgTableLine (tablename t)
                                       (Sql.count_rows d (tablename t))
                                       (size_pretty t))) (trace o)) /\
  (forall e, In e (enums d) -> In (EvPrint (MsgTypeLine e)) (trace o)) /\
  (tables d = [] -> In (EvPrint MsgNoTablesFound) (trace o)) /\
  count is_execute (trace o) = 3 + length (tables d).
Proof.
  intros Hs Hf Hnd Hnames. cbv zeta. unfold status.
  rewrite run_print_then, (run_session_up _ _ _ Hs), run_finally_disconnect.
  cbn [after res post trace app].
  set (d := durable w) in *. set (w1 := set_conn (Some d) w).
  assert (H0 : hd false (faults w1) = false) by (cbn; rewrite Hf; reflexivity).
  unfold try_except.
  rewrite (bind_val _ _ _ _ _ _ _ _
             (run_execute_ok _ SelectVersion w1 d d _ eq_refl H0 eq_refl)).
  rewrite run_print_then.
  set (w2 := set_conn (Some d) (set_faults (tl (faults w1)) w1)).
  assert (Hf2 : faults w2 = []) by (unfold w2; cbn; rewrite Hf; reflexivity).
  assert (H2 : hd false (faults w2) = false) by (rewrite Hf2; reflexivity).
  set (rows := map (fun t => (tablename t, size_pretty t))
                   (Sql.order_by
                      (fun a b => String.leb (tablename a) (tablename b))
                      (tables d))).
  assert (Hsel : apply_stmt (run_batch w2) SelectTableSizes d = Some (d, rows))
    by (cbn [apply_stmt]; rewrite (table_sizes_own d Hnd Hnames); reflexivity).
  rewrite (bind_val _ _ _ _ _ _ _ _
             (run_execute_ok _ SelectTableSizes w2 d d _ eq_refl H2 Hsel)).
  set (w3 := set_conn (Some d) (set_faults (tl (faults w2)) w2)).
  assert (Hf3 : faults w3 = []) by (unfold w3; cbn; rewrite Hf; reflexivity).
  destruct (status_tables_run w3 d rows eq_refl Hf3)
    as (w4 & T4 & Hrun4 & Hc4 & Hf4 & Hrows & Hnone & Hcount).
  rewrite (bind_val _ _ _ _ _ _ _ _ Hrun4).
  assert (H4 : hd false (faults w4) = false) by (rewrite Hf4; reflexivity).
  rewrite (bind_val _ _ _ _ _ _ _ _
             (run_execute_ok _ SelectEnums w4 d d _ Hc4 H4 eq_refl)).
  set (w5 := set_conn (Some d) (set_faults (tl (faults w4)) w4)).
  destruct (status_types_run w5 (enums d)) as (T5 & Hrun5 & Htypes & Hcount5).
  rewrite (bind_val _ _ _ _ _ _ _ _ Hrun5).
  cbn -[close_log].
  split; [reflexivity|].
  split; [right; right; right; right; left; reflexivity|].
  split; [|split; [|split]].
  - intros t Ht. repeat right. apply in_or_app. left.
    apply in_or_app. left.
    apply (Hrows (tablename t, size_pretty t)), In_table_rows, Ht.
  - intros e He. repeat right. apply in_or_app. left.
    apply in_or_app. right. right. apply in_or_app. left. auto.
  - intros Hnil. repeat right. apply in_or_app. left.
    apply in_or_app. left. apply Hnone. unfold rows.
    rewrite Hnil. reflexivity.
  - rewrite !count_cons, !count_app, !count_cons, !count_app, Hcount, Hcount5.
    rewrite (close_log_count is_execute w5 eq_refl).
    unfold rows. rewrite length_map, length_order_by.
    cbn [is_execute count plus]. unfold count. cbn. lia.
Qed.

Lemma status_reports_witness :
  let w := world_of fresh_db no_files [] in
  let o := status sample_cli w in
  res o = Val true /\
  In (EvPrint (MsgTableLine "users" 0 "8192 bytes")) (trace o) /\
  In (EvPrint (MsgTypeLine "user_type")) (trace o).
Proof.
  cbv zeta.
  assert (Hnd : NoDup (map tablename
                           (tables (durable (world_of fresh_db no_files [])))))
    by (vm_compute; repeat constructor; cbn; intuition discriminate).
  assert (Hnames : forall t,
             In t (tables (durable (world_of fresh_db no_files []))) ->
             reads_as_itself (tablename t) = true)
    by (intros t Ht; vm_compute in Ht;
        repeat (destruct Ht as [<-|Ht]; [reflexivity|]); destruct Ht).
  destruct (status_reports_catalogue
              sample_cli (world_of fresh_db no_files [])
              eq_refl eq_refl Hnd Hnames)
    as (Hr & _ & Ht & He & _).
  split; [exact Hr|]. split.
  - apply (Ht {| tablename := "users"; size_pretty := "8192 bytes" |}).
    left. reflexivity.
  - apply He. left. reflexivity.
Defined.

(** A table created with a quoted mixed-case name: the size query puts the
    name unquoted into its text, the engine looks for the lower-case name,
    finds no relation, and status returns False from its handler before any
    table line is printed. *)
Example status_mixed_case_table :
  let d := with_tables [{| tablename := "Zebra"; size_pretty := "8192 bytes" |}]
                       empty_db in
  let o := status sample_cli (world_of d no_files []) in
  reads_as_itself "Zebra" = false /\
  res o = Val false /\
  In (EvPrint (MsgStatusError OperationalError)) (trace o) /\
  count is_execute (trace o) = 2.
Proof. vm_compute. repeat split. auto 10. Qed.

(** ** cleanup_orphaned_menus: the remaining paths *)

Lemma try_except_val_step A B (m : M A) (k : A -> M B) (h : Exn -> M B)
      (w : World) (a : A) (w1 : World) (t1 : list Event) :
  m w = mkOut (Val a) w1 t1 ->
  try_except (bind m k) h w = after t1 (try_except (k a) h w1).
Proof.
  intros H. unfold try_except, bind, after. rewrite H.
  destruct (k a w1) as [[b|e] w2 t2]; cbn; [reflexivity|].
  destruct (h e w2) as [r w3 t3]. cbn. rewrite app_assoc. reflexivity.
Qed.

Lemma try_except_raise_step A B (m : M A) (k : A -> M B) (h : Exn -> M B)
      (w : World) (e : Exn) (w1 : World) (t1 : list Event) :
  m w = mkOut (Raise e) w1 t1 ->
  try_except (bind m k) h w = after t1 (h e w1).
Proof.
  intros H. unfold try_except, bind, after. rewrite H.
  destruct (h e w1) as [r w3 t3]. reflexivity.
Qed.

Lemma try_except_print_step B (p : Msg) (k : M B) (h : Exn -> M B) (w : World) :
  try_except (print p ;; k) h w = after [EvPrint p] (try_except k h w).
Proof. apply (try_except_val_step _ _ (print p) (fun _ => k) h w tt w). reflexivity. Qed.

Lemma select_orphans_length (d : Db) :
  length (Sql.select_orphans d) = length (Sql.orphans d).
Proof.
  unfold Sql.select_orphans. rewrite length_order_by, length_map. reflexivity.
Qed.

Lemma select_orphans_none (d : Db) :
  Sql.orphans d = [] -> Sql.select_orphans d = [].
Proof.
  intros H. apply length_zero_iff_nil. rewrite select_orphans_length, H.
  reflexivity.
Qed.

Lemma deleted_count (d : Db) :
  snd (Sql.delete_orphans d) = length (Sql.orphans d).
Proof.
  unfold Sql.delete_orphans, Sql.orphans at 2. cbn [snd]. f_equal.
  apply filter_ext_in. intros m Hm. apply orphan_ids. exact Hm.
Qed.

Lemma filter_out_then_in A (f : A -> bool) (l : list A) :
  filter f (filter (fun x => negb (f x)) l) = [].
Proof.
  induction l as [|x l IH]; [reflexivity|]. cbn.
  destruct (f x) eqn:E; cbn; [exact IH|]. rewrite E. exact IH.
Qed.

Lemma orphans_after_delete (d : Db) :
  Sql.orphans (fst (Sql.delete_orphans d)) = [].
Proof.
  unfold Sql.orphans at 1. rewrite delete_orphans_menus.
  apply (filter_out_then_in _ (Sql.is_orphan d)).
Qed.

Lemma restaurant_menus_after_delete (d : Db) :
  restaurant_menus (fst (Sql.delete_orphans d)) = restaurant_menus d.
Proof. reflexivity. Qed.

(** The log of the deletion when the engine fails nothing. *)
Lemma cleanup_execute_run (w : World) (d : Db) :
  conn w = Some d -> faults w = [] ->
  let d' := fst (Sql.delete_orphans d) in
  let r := length (Sql.orphans d') in
  res (cleanup_execute w) = Val true /\
  durable (post (cleanup_execute w)) = d' /\
  trace (cleanup_execute w) =
    [EvExecute DeleteOrphans true; EvCommit true;
     EvPrint (MsgDeleted (snd (Sql.delete_orphans d)));
     EvExecute CountOrphans true;
     EvPrint (if (r =? 0)%nat then MsgAllRemoved else MsgStillOrphans r);
     EvExecute SelectStats true; EvPrint MsgStatsHeader;
     EvPrint (MsgTotalMenus (fst (fst (Sql.stats d'))));
     EvPrint (MsgMenusWithRestaurants (snd (Sql.stats d')));
     EvPrint (MsgMenuAssignments (snd (fst (Sql.stats d'))))].
Proof.
  intros Hc Hf. cbv zeta.
  unfold cleanup_execute, bind, cursor_execute, conn_commit.
  rewrite Hc, Hf. cbn.
  destruct (Sql.delete_orphans d) as [d' n] eqn:Hd. cbn.
  destruct (Nat.eqb _ 0); cbn; auto.
Qed.

(** On a database with no orphaned menu the command returns True after its
    one query, in dry-run mode and with --execute alike: it asks nothing,
    reads nothing from standard input and writes nothing. *)
Theorem cleanup_clean_database
        (self : DatabaseCLI) (dry_run : bool) (w : World) :
  server w (db_url self) = true ->
  hd false (faults w) = false ->
  Sql.orphans (durable w) = [] ->
  let o := cleanup_orphaned_menus self dry_run w in
  res o = Val true /\
  trace o =
    [EvPrint MsgCleanupHeader; EvConnect (db_url self) true;
     EvPrint MsgConnected; EvExecute SelectOrphans true; EvPrint MsgNoOrphans;
     EvDisconnect; EvClose; EvPrint MsgClosed] /\
  durable (post o) = durable w /\
  stdin (post o) = stdin w.
Proof.
  cbv zeta. intros Hs Hf Ho. apply select_orphans_none in Ho.
  unfold cleanup_orphaned_menus.
  rewrite run_print_then, (run_session_up _ _ _ Hs), run_finally_disconnect.
  cbn [after res post trace]. rewrite closed_durable.
  set (w1 := set_conn (Some (durable w)) w).
  rewrite (try_except_val_step _ _ _ _ _ _ _ _ _
             (run_execute_ok _ SelectOrphans w1 (durable w) (durable w) _
                             eq_refl Hf eq_refl)).
  rewrite Ho. cbn. auto.
Qed.

Lemma cleanup_clean_database_witness :
  let w := world_of fresh_db no_files [] in
  let o := cleanup_orphaned_menus sample_cli false w in
  res o = Val true /\ stdin (post o) = stdin w.
Proof.
  cbv zeta.
  destruct (cleanup_clean_database sample_cli false
              (world_of fresh_db no_files []) eq_refl eq_refl eq_refl)
    as (H1 & _ & _ & H2).
  split; [exact H1 | exact H2].
Defined.

(** The run of the command up to its prompt, when orphans were found. *)
Ltac cleanup_to_prompt self w Hs Hf Ho :=
  apply select_orphans_nonempty in Ho;
  unfold cleanup_orphaned_menus;
  rewrite run_print_then, (run_session_up _ _ _ Hs), run_finally_disconnect;
  rewrite (try_except_val_step _ _ _ _ _ _ _ _ _
             (run_execute_ok _ SelectOrphans (set_conn (Some (durable w)) w)
                             (durable w) (durable w) _ eq_refl Hf eq_refl));
  let r := fresh "r" in
  let rows := fresh "rows" in
  let Hfound := fresh "Hfound" in
  destruct (Sql.select_orphans (durable w)) as [|r rows] eqn:Hfound;
  [congruence|];
  rewrite <- Hfound;
  rewrite !try_except_print_step;
  rewrite (try_except_val_step _ _ _ _ _ _ _ _ _
             (run_for_each_print _ _ (Sql.select_orphans (durable w)) _));
  rewrite !try_except_print_step;
  cbn [negb].

Lemma run_input_eof (w : World) (prompt : Msg) :
  stdin w = [] ->
  input prompt w = mkOut (Raise EOFError) w [EvPrint prompt; EvInput None].
Proof. intros H. unfold input. rewrite H. reflexivity. Qed.

(** When standard input is at its end the prompt raises EOFError, which the
    handler catches: the command rolls back and returns False, and nothing
    was deleted. *)
Theorem cleanup_prompt_at_end_of_input (self : DatabaseCLI) (w : World) :
  server w (db_url self) = true ->
  hd false (faults w) = false ->
  Sql.orphans (durable w) <> [] ->
  stdin w = [] ->
  let o := cleanup_orphaned_menus self false w in
  res o = Val false /\
  In (EvPrint (MsgCleanupError EOFError)) (trace o) /\
  never is_write (trace o) = true /\
  never is_commit (trace o) = true /\
  count is_rollback (trace o) = 1 /\
  durable (post o) = durable w.
Proof.
  cbv zeta. intros Hs Hf Ho Hin.
  cleanup_to_prompt self w Hs Hf Ho.
  set (w2 := set_conn _ (set_faults _ _)).
  assert (Hin2 : stdin w2 = []) by exact Hin.
  rewrite (try_except_raise_step _ _ _ _ _ _ _ _ _ (run_input_eof w2 _ Hin2)).
  cbn.
  split; [reflexivity|]. split.
  { do 6 right. apply in_or_app. left. apply in_or_app. right.
    cbn. auto 10. }
  rewrite !never_cons, !never_app, !never_prints by reflexivity.
  split; [reflexivity|]. split; [reflexivity|]. split; [|reflexivity].
  rewrite !count_cons, !count_app.
  rewrite (never_count _ _ (never_prints _ is_rollback orphan_line _
                                         (fun _ => eq_refl))).
  reflexivity.
Qed.

Lemma cleanup_prompt_at_end_of_input_witness :
  let w := world_of menu_db no_files [] in
  let o := cleanup_orphaned_menus sample_cli false w in
  res o = Val false /\ durable (post o) = durable w.
Proof.
  cbv zeta.
  assert (Ho : Sql.orphans (durable (world_of menu_db no_files [])) <> [])
    by (vm_compute; discriminate).
  destruct (cleanup_prompt_at_end_of_input
              sample_cli (world_of menu_db no_files [])
              eq_refl eq_refl Ho eq_refl)
    as (H1 & _ & _ & _ & _ & H2).
  split; [exact H1 | exact H2].
Defined.


Ltac in_log :=
  cbn [app In];
  repeat match goal with
         | |- ?x = ?x \/ _ => left; reflexivity
         | |- _ = _ \/ _ => right
         | |- In _ ((map _ _ ++ _) ++ _) => apply in_or_app; left
         | |- In _ (map _ _ ++ _) => apply in_or_app; right; cbn [app In]
         end.

(** A confirmed run that the engine does not fail reports what it did: the
    number it says it deleted is the number of orphans it listed, its
    verification finds none left, the total it prints is the number of menus
    there were less the number deleted, the committed database holds no
    orphaned menu any more (a second run has nothing to do), and the
    assignments are untouched. *)
Theorem cleanup_reports_what_it_deleted
        (self : DatabaseCLI) (w : World) (response : string)
        (rest : list string) :
  server w (db_url self) = true ->
  faults w = [] ->
  Sql.orphans (durable w) <> [] ->
  stdin w = response :: rest ->
  Py.lower response = "yes" ->
  let o := cleanup_orphaned_menus self false w in
  let n := length (Sql.orphans (durable w)) in
  res o = Val true /\
  In (EvPrint (MsgFound n)) (trace o) /\
  In (EvPrint (MsgDeleted n)) (trace o) /\
  In (EvPrint MsgAllRemoved) (trace o) /\
  In (EvPrint (MsgTotalMenus (length (menus (durable w)) - n))) (trace o) /\
  Sql.orphans (durable (post o)) = [] /\
  restaurant_menus (durable (post o)) = restaurant_menus (durable w).
Proof.
  cbv zeta. intros Hs Hf0 Ho Hin Hyes.
  assert (Hf : hd false (faults w) = false) by (rewrite Hf0; reflexivity).
  cleanup_to_prompt self w Hs Hf Ho.
  set (w2 := set_conn _ (set_faults _ _)).
  assert (Hin2 : stdin w2 = response :: rest) by exact Hin.
  rewrite (try_except_val_step _ _ _ _ _ _ _ _ _
             (run_input w2 MsgConfirmPrompt response rest Hin2)).
  rewrite Hyes. cbn [String.eqb Ascii.eqb Bool.eqb negb].
  set (w3 := set_stdin rest w2).
  assert (Hc3 : conn w3 = Some (durable w)) by reflexivity.
  assert (Hf3 : faults w3 = []) by (unfold w3, w2; cbn; rewrite Hf0; reflexivity).
  destruct (cleanup_execute_run w3 (durable w) Hc3 Hf3) as (Hr & Hd & Ht).
  unfold try_except.
  destruct (cleanup_execute w3) as [r3 w4 t4]. cbn [res post trace] in Hr, Hd, Ht.
  subst r3. cbn [after res post trace]. rewrite closed_durable, Hd.
  rewrite select_orphans_length.
  assert (Hst : fst (fst (Sql.stats (fst (Sql.delete_orphans (durable w))))) =
                length (menus (durable w)) - length (Sql.orphans (durable w))).
  { unfold Sql.stats. cbn [fst]. rewrite delete_orphans_menus.
    pose proof (filter_length (Sql.is_orphan (durable w)) (menus (durable w)))
      as HL.
    unfold Sql.orphans. lia. }
  rewrite Ht, deleted_count, orphans_after_delete, Hst.
  cbn [length Nat.eqb].
  split; [reflexivity|].
  repeat (split; [solve [in_log]|]).
  split; reflexivity.
Qed.

Lemma cleanup_reports_witness :
  let w := world_of menu_db no_files ["yes"] in
  let o := cleanup_orphaned_menus sample_cli false w in
  res o = Val true /\
  In (EvPrint (MsgDeleted 1)) (trace o) /\
  Sql.orphans (durable (post o)) = [].
Proof.
  cbv zeta.
  assert (Ho : Sql.orphans (durable (world_of menu_db no_files ["yes"])) <> [])
    by (vm_compute; discriminate).
  destruct (cleanup_reports_what_it_deleted
              sample_cli (world_of menu_db no_files ["yes"]) "yes" []
              eq_refl eq_refl Ho eq_refl eq_refl)
    as (H1 & _ & H2 & _ & _ & H3 & _).
  split; [exact H1|]. split; [exact H2 | exact H3].
Defined.





(** ** reset: all or nothing *)









(** ** execute_sql_file: when it returns True *)

(** execute_sql_file returns True exactly when the file goes through: it can
    be read, and the engine takes the batch and then the commit.  What is
    committed then is the engine's reading of the whole file on the working
    copy, after these three calls and nothing else. *)
Theorem execute_sql_file_true_iff
        (self : DatabaseCLI) (filepath : string) (w : World) (d : Db) :
  conn w = Some d ->
  let o := execute_sql_file self filepath w in
  (res o = Val true <-> file_goes_through w filepath d) /\
  (forall s d', fs w filepath = Text s -> run_batch w s d = Some d' ->
                res o = Val true ->
                durable (post o) = d' /\
                trace o = [EvOpen filepath true; EvExecute (Batch s) true;
                           EvCommit true; EvPrint (MsgFileOk filepath)]).
Proof.
  intros Hc. cbv zeta.
  destruct (execute_sql_file_cases self filepath w d Hc)
    as (_ & _ & H3 & _ & _).
  assert (Hback : file_goes_through w filepath d ->
                  res (execute_sql_file self filepath w) = Val true).
  { intros (s & d' & Hf & H0 & Hb & H1).
    rewrite (run_file_ok self filepath w d d' s Hc Hf H0 Hb H1). reflexivity. }
  split; [split; [intros Hr; apply H3, Hr | exact Hback]|].
  intros s d' Hf Hb Hr.
  destruct (proj2 (H3 Hr)) as (s0 & d0 & Hf0 & H0 & Hb0 & H1).
  rewrite Hf in Hf0. injection Hf0 as <-.
  rewrite Hb in Hb0. injection Hb0 as <-.
  rewrite (run_file_ok self filepath w d d' s Hc Hf H0 Hb H1).
  split; reflexivity.
Qed.

Lemma execute_sql_file_true_witness :
  let w := set_conn (Some menu_db)
                    (world_of menu_db (project_files "CREATE") []) in
  res (execute_sql_file sample_cli schema_file w) = Val true.
Proof.
  cbv zeta.
  destruct (execute_sql_file_true_iff
              sample_cli schema_file
              (set_conn (Some menu_db)
                        (world_of menu_db (project_files "CREATE") []))
              menu_db eq_refl) as [[_ H] _].
  apply H. do 2 eexists. repeat split; reflexivity.
Defined.

(** ** seed: what a successful run leaves *)

(** After a run of seed that returned True every sample account exists in
    the committed users table, and every account that was there before is
    still there: seed only adds. *)
Theorem seed_leaves_sample_accounts (self : DatabaseCLI) (w : World) :
  res (seed self w) = Val true ->
  (forall u, In u sample_users ->
             has_user (durable (post (seed self w))) (sample_name u) = true) /\
  (forall n, has_user (durable w) n = true ->
             has_user (durable (post (seed self w))) n = true).
Proof.
  intros Hr.
  destruct (seed_cases self w) as
    [ Hs Hres _ _
    | wl tr dl Hs HL Hc _ Hd _
    | wl tr Hs HL Hres _ _
    | e wl tr Hs HL Hres _ _ ]; try congruence.
  set (w1 := set_conn (Some (durable w)) w) in *.
  assert (Hc1 : conn w1 = Some (durable w)) by reflexivity.
  assert (Hv : res (for_each sample_users seed_user w1) = Val tt)
    by (rewrite HL; reflexivity).
  destruct (seed_loop_val sample_users w1 (durable w) Hc1 Hv)
    as (_ & d' & Hc' & Hall & Hmono).
  rewrite HL in Hc'. cbn [post] in Hc'. rewrite Hc in Hc'.
  injection Hc' as <-. rewrite Hd. auto.
Qed.

Lemma seed_leaves_sample_accounts_witness :
  let o := seed sample_cli (world_of fresh_db no_files []) in
  has_user (durable (post o)) "admin1" = true.
Proof.
  cbv zeta.
  destruct (seed_leaves_sample_accounts
              sample_cli (world_of fresh_db no_files []) eq_refl) as [H _].
  apply (H ("admin1", "admin1@example.com", "password123", "admin")).
  vm_compute. auto 10.
Defined.

(** ** Where a relative schema path is taken from *)

Lemma is_name_chars (n : string) :
  is_name n = true ->
  forallb (fun c => negb (Py.is_slash c)) (list_ascii_of_string n) = true /\
  list_ascii_of_string n <> [].
Proof.
  unfold is_name. intros H. apply andb_true_iff in H. destruct H as [Hne Hall].
  split; [exact Hall|]. destruct n; [discriminate Hne | discriminate].
Qed.

Lemma is_dir_shape (d : string) :
  is_dir d = true ->
  forallb Py.is_slash (list_ascii_of_string d) = true \/
  exists c r, rev (list_ascii_of_string d) = c :: r /\ Py.is_slash c = false.
Proof.
  unfold is_dir. intros H.
  destruct (forallb Py.is_slash (list_ascii_of_string d)) eqn:Hall; [auto|].
  right. cbn [orb] in H.
  rewrite <- (string_of_list_ascii_of_string d) in H.
  rewrite ends_with_slash_chars in H.
  destruct (rev (list_ascii_of_string d)) as [|c r] eqn:Hrev.
  - apply (f_equal (@rev ascii)) in Hrev. rewrite rev_involutive in Hrev.
    rewrite Hrev in Hall. discriminate Hall.
  - exists c, r. split; [reflexivity|].
    destruct (Py.is_slash c); [discriminate H | reflexivity].
Qed.

Lemma rev_name_head (name : list ascii) :
  forallb (fun c => negb (Py.is_slash c)) name = true -> name <> [] ->
  exists c r, rev name = c :: r /\ Py.is_slash c = false.
Proof.
  intros Hall Hne. rewrite <- forallb_rev in Hall.
  destruct (rev name) as [|c r] eqn:Hrev.
  - apply (f_equal (@rev ascii)) in Hrev. rewrite rev_involutive in Hrev.
    contradiction.
  - exists c, r. split; [reflexivity|]. cbn in Hall.
    apply andb_true_iff in Hall. destruct Hall as [Hc _].
    destruct (Py.is_slash c); [discriminate Hc | reflexivity].
Qed.

(** A name joined to a directory: dirname takes it off again, and the result
    is a directory path in its turn. *)
Lemma dirname_join (d n : string) :
  is_dir d = true -> is_name n = true ->
  Py.dirname (Py.join d n) = d /\ is_dir (Py.join d n) = true.
Proof.
  intros Hd Hn. apply is_dir_shape in Hd.
  destruct (is_name_chars n Hn) as [Hall Hne].
  rewrite <- (string_of_list_ascii_of_string d).
  rewrite <- (string_of_list_ascii_of_string n).
  split; [apply dirname_join_name; assumption|].
  destruct (rev_name_head _ Hall Hne) as (c & r & Hrev & Hc).
  assert (Hrel : match list_ascii_of_string n with
                 | x :: _ => Py.is_slash x
                 | [] => false
                 end = false).
  { destruct (list_ascii_of_string n) as [|x l]; [reflexivity|].
    cbn in Hall. apply andb_true_iff in Hall. destruct Hall as [Hx _].
    destruct (Py.is_slash x); [discriminate Hx | reflexivity]. }
  rewrite (join_chars _ _ Hrel). unfold is_dir.
  rewrite ends_with_slash_chars.
  apply orb_true_iff. right.
  destruct (rev (list_ascii_of_string d)) as [|x t];
    [|destruct (Py.is_slash x)];
    rewrite ?rev_app_distr; cbn [rev]; rewrite ?rev_app_distr, Hrev;
    cbn [app]; rewrite Hc; reflexivity.
Qed.

(** An absolute schema path is used as given.  A relative one is taken from
    the directory two levels above the directory of the script: for a script
    at root/a/b/f it is joined to root, wherever the command is run from. *)
Theorem resolve_schema_from_script_location (root a b f p : string) :
  is_dir root = true ->
  is_name a = true -> is_name b = true -> is_name f = true ->
  resolve_schema (Py.join (Py.join (Py.join root a) b) f) p =
  if Py.isabs p then p else Py.join root p.
Proof.
  intros Hr Ha Hb Hf. unfold resolve_schema.
  destruct (Py.isabs p); cbn [negb]; [reflexivity|].
  destruct (dirname_join root a Hr Ha) as [E1 D1].
  destruct (dirname_join _ b D1 Hb) as [E2 D2].
  destruct (dirname_join _ f D2 Hf) as [E3 _].
  rewrite E3, E2, E1. reflexivity.
Qed.

Lemma resolve_schema_witness :
  resolve_schema "/srv/app/tools/cli/cli.py" "backend/sql/schema.sql" =
  "/srv/app/backend/sql/schema.sql".
Proof.
  exact (resolve_schema_from_script_location
           "/srv/app" "tools" "cli" "cli.py" "backend/sql/schema.sql"
           eq_refl eq_refl eq_refl eq_refl).
Defined.
